(** * Terrain synthesis and chunk streaming: a shallow embedding

    The development follows the TypeScript sources of the world engine:

    - [world/WorldGenerator.ts]   height synthesis and chunk mesh builder
    - [world/sampleTerrainHeightAt.ts]   nearest-vertex height query
    - [world/ChunkManager.ts]     resident table and load/unload deltas
    - [world/WorldManager.tsx]    per-frame coordinator
    - [world/TerrainChunk.tsx]    the effect that marks a chunk loaded

    JavaScript [number]s are binary64 values ([PrimFloat.float]).  Numbers
    that are integral by construction and are used as counters, array
    lengths, grid indices or chunk coordinates are integers ([Z]); the
    conversions between both views are written out ([of_Z], [Math_round],
    [as_index]).  The two external libraries ([alea], [simplex-noise]) and
    the two transcendental functions of the host ([Math.sin], [Math.pow])
    are parameters of the development. *)

From Stdlib Require Import ZArith QArith Floats Reals Lra Lia Psatz Ascii.
From stdpp Require Import base decidable option list gmap sets strings pretty.

#[local] Open Scope Z_scope.

(* ================================================================== *)
(** * JavaScript numbers *)
(* ================================================================== *)

Module JS.

(** The binary64 value of an integer (round to nearest even beyond 2^53). *)
Definition of_Z (z : Z) : float :=
  SF2Prim (binary_normalize prec emax z 0 false).

(** A decimal literal of the source text: the binary64 value nearest to
    the rational it denotes (both parts of every literal in the sources
    are below 2^53, so the correctly rounded quotient is that value). *)
Definition of_Q (q : Q) : float :=
  (of_Z (Qnum q) / of_Z (Zpos (Qden q)))%float.

(** [m * 2^e] rounded towards minus infinity, as an integer. *)
Definition floor_value (s : bool) (m : positive) (e : Z) : Z :=
  Z.shiftl (cond_Zopp s (Zpos m)) e.

(** [Math.floor]. *)
Definition Math_floor (x : float) : float :=
  match Prim2SF x with
  | S754_finite s m e => if e <? 0 then of_Z (floor_value s m e) else x
  | _ => x
  end.

Definition is_zero (x : float) : bool :=
  match Prim2SF x with S754_zero _ => true | _ => false end.

Definition sign_bit (x : float) : bool :=
  match Prim2SF x with
  | S754_zero s | S754_infinity s | S754_finite s _ _ => s
  | S754_nan => false
  end.

(** [Number.isNaN]. *)
Definition isNaN (x : float) : bool :=
  match Prim2SF x with S754_nan => true | _ => false end.

(** [Math.max] and [Math.min] of two arguments: NaN is contagious and
    [+0] is larger than [-0]. *)
Definition Math_max (a b : float) : float :=
  if is_nan a || is_nan b then nan
  else if (a <? b)%float then b
  else if (b <? a)%float then a
  else if is_zero a && sign_bit a then b else a.

Definition Math_min (a b : float) : float :=
  if is_nan a || is_nan b then nan
  else if (a <? b)%float then a
  else if (b <? a)%float then b
  else if is_zero a && sign_bit a then a else b.

(** [ToInt32], the conversion applied to the operands of [^]. *)
Definition wrap32 (n : Z) : Z := (n + 2 ^ 31) mod 2 ^ 32 - 2 ^ 31.

Definition ToInt32 (x : float) : Z :=
  match Prim2SF x with
  | S754_finite s m e => wrap32 (cond_Zopp s (Z.shiftl (Zpos m) e))
  | _ => 0
  end.

(** The integer a finite integral number denotes; nothing for NaN and the
    infinities. *)
Definition as_integer (x : float) : option Z :=
  match Prim2SF x with
  | S754_zero _ => Some 0
  | S754_finite s m e => Some (floor_value s m e)
  | _ => None
  end.

(** A number used as an array index: [a[i]] reads an element only when
    [i] is a non-negative integer ([-0] prints as ["0"]). *)
Definition as_index (x : float) : option Z :=
  match Prim2SF x with
  | S754_zero _ => Some 0
  | S754_finite false m e =>
      if (0 <=? e) || (Z.land (Zpos m) (Z.ones (- e)) =? 0)
      then Some (Z.shiftl (Zpos m) e) else None
  | _ => None
  end.

(** [xs[k]] for an integer [k]: [undefined] outside the array. *)
Definition element {A : Type} (xs : list A) (k : Z) : option A :=
  if (0 <=? k) && (k <? Z.of_nat (length xs)) then xs !! Z.to_nat k else None.

(** ** Integral numbers

    The value of [Math.round] and everything computed from it by integer
    arithmetic: an integer, or one of the three special values. *)
Inductive integral : Type :=
| INaN
| IInf (negative : bool)
| IInt (z : Z).

(** [Math.round]: the nearest integer, ties towards plus infinity. *)
Definition Math_round (x : float) : integral :=
  match Prim2SF x with
  | S754_nan => INaN
  | S754_infinity s => IInf s
  | S754_zero _ => IInt 0
  | S754_finite s m e =>
      if e <? 0
      then IInt (Z.shiftr (cond_Zopp s (Zpos m) + 2 ^ (- e - 1)) (- e))
      else IInt (floor_value s m e)
  end.

Definition to_float (i : integral) : float :=
  match i with
  | INaN => nan
  | IInf false => infinity
  | IInf true => neg_infinity
  | IInt z => of_Z z
  end.

Definition iadd (a b : integral) : integral :=
  match a, b with
  | INaN, _ | _, INaN => INaN
  | IInf s, IInf t => if Bool.eqb s t then IInf s else INaN
  | IInf s, IInt _ | IInt _, IInf s => IInf s
  | IInt x, IInt y => IInt (x + y)
  end.

Definition iopp (a : integral) : integral :=
  match a with
  | INaN => INaN
  | IInf s => IInf (negb s)
  | IInt x => IInt (- x)
  end.

Definition isub (a b : integral) : integral := iadd a (iopp b).

Definition imul (a b : integral) : integral :=
  match a, b with
  | INaN, _ | _, INaN => INaN
  | IInf s, IInf t => IInf (xorb s t)
  | IInf s, IInt z | IInt z, IInf s =>
      if z =? 0 then INaN else IInf (xorb s (z <? 0))
  | IInt x, IInt y => IInt (x * y)
  end.

(** [a < b]; false as soon as one side is NaN. *)
Definition iltb (a b : integral) : bool :=
  match a, b with
  | INaN, _ | _, INaN => false
  | IInf s, IInf t => s && negb t
  | IInf s, IInt _ => s
  | IInt _, IInf t => negb t
  | IInt x, IInt y => x <? y
  end.

Definition imax (a b : integral) : integral :=
  match a, b with
  | INaN, _ | _, INaN => INaN
  | _, _ => if iltb a b then b else a
  end.

Definition imin (a b : integral) : integral :=
  match a, b with
  | INaN, _ | _, INaN => INaN
  | _, _ => if iltb b a then b else a
  end.

End JS.

(* ================================================================== *)
(** * The arithmetic the height synthesis is written in *)
(* ================================================================== *)

(** [getHeightAt] and its helpers only add, subtract, multiply, divide and
    take absolute values, maxima, minima and powers.  They are written once
    over this interface and read at two instances: binary64, which is what
    the program runs, and the real numbers, which is what the amplitude
    envelope is reasoned about in. *)
Class Number (T : Type) : Type := {
  num_lit : Q -> T;
  num_add : T -> T -> T;
  num_sub : T -> T -> T;
  num_mul : T -> T -> T;
  num_div : T -> T -> T;
  Math_abs : T -> T;
  Math_max : T -> T -> T;
  Math_min : T -> T -> T;
  Math_pow : T -> T -> T
}.

Declare Scope num_scope.
Delimit Scope num_scope with num.
Notation "x + y" := (num_add x y) : num_scope.
Notation "x - y" := (num_sub x y) : num_scope.
Notation "x * y" := (num_mul x y) : num_scope.
Notation "x / y" := (num_div x y) : num_scope.
Notation "# q" := (num_lit q%Q) (at level 1, format "# q") : num_scope.

(** Binary64; [Math.pow] is supplied by the host. *)
Definition Float64 (pow : float -> float -> float) : Number float := {|
  num_lit := JS.of_Q;
  num_add := PrimFloat.add;
  num_sub := PrimFloat.sub;
  num_mul := PrimFloat.mul;
  num_div := PrimFloat.div;
  Math_abs := PrimFloat.abs;
  Math_max := JS.Math_max;
  Math_min := JS.Math_min;
  Math_pow := pow
|}.

(** Exact real arithmetic. *)
Definition Exact (pow : R -> R -> R) : Number R := {|
  num_lit := Q2R;
  num_add := Rplus;
  num_sub := Rminus;
  num_mul := Rmult;
  num_div := Rdiv;
  Math_abs := Rabs;
  Math_max := Rmax;
  Math_min := Rmin;
  Math_pow := pow
|}.

(* ================================================================== *)
(** * Data model ([world/types.ts]) *)
(* ================================================================== *)

Module ChunkCoordinate.
Record t : Type := mk { x : Z; z : Z }.
End ChunkCoordinate.
Abbreviation ChunkCoordinate := ChunkCoordinate.t.

#[global] Instance ChunkCoordinate_eq_dec : EqDecision ChunkCoordinate.
Proof. solve_decision. Defined.

Module Vector3.
Record t : Type := mk { x : float; y : float; z : float }.
End Vector3.
Abbreviation Vector3 := Vector3.t.

(** The numeric fields are read at the number type of the generator;
    [meshResolution] and [renderDistance] count grid cells and chunks. *)
Record WorldGenerationSettings (T : Type) : Type := {
  seed : string;
  chunkSize : T;
  meshResolution : Z;
  waterLevel : T;
  continentScale : T;
  continentAmplitude : T;
  mountainScale : T;
  mountainAmplitude : T;
  mountainSharpness : T;
  detailScale : T;
  detailAmplitude : T;
  warpScale : T;
  warpStrength : T;
  renderDistance : Z
}.
Arguments seed {T}.
Arguments chunkSize {T}.
Arguments meshResolution {T}.
Arguments waterLevel {T}.
Arguments continentScale {T}.
Arguments continentAmplitude {T}.
Arguments mountainScale {T}.
Arguments mountainAmplitude {T}.
Arguments mountainSharpness {T}.
Arguments detailScale {T}.
Arguments detailAmplitude {T}.
Arguments warpScale {T}.
Arguments warpStrength {T}.
Arguments renderDistance {T}.

(** Scatter objects. *)
Module Cube.
Record t : Type := mk { x : float; y : float; z : float; size : float }.
End Cube.
Abbreviation Cube := Cube.t.

Module Ball.
Record t : Type := mk { x : float; y : float; z : float; radius : float }.
End Ball.
Abbreviation Ball := Ball.t.

(** [Float32Array] and [Uint32Array] contents are lists of the stored
    values. *)
Record TerrainData : Type := {
  heights : list float;
  normals : list float;
  vertices : list float;
  indices : list Z;
  cubes : list Cube;
  balls : list Ball
}.

(** What [sampleTerrainHeightAt] reads of a three.js mesh:
    [mesh.geometry.boundingBox], which is null until it is computed, and
    its [max.x]. *)
Record Mesh : Type := { boundingBox : option float }.

Record WorldChunk : Type := {
  coordinate : ChunkCoordinate;
  position : Vector3;
  isLoaded : bool;
  isVisible : bool;
  mesh : option Mesh;
  needsUpdate : bool
}.

(* ================================================================== *)
(** * Height synthesis ([WorldGenerator], lines 34-216) *)
(* ================================================================== *)

Section HeightField.
Context {T : Type} {N : Number T}.
Context {PRNG : Type}.
(** [alea(seed)] and [createNoise2D(prng)] of the two libraries. *)
Variable alea : string -> PRNG.
Variable createNoise2D : PRNG -> T -> T -> T.

#[local] Open Scope num_scope.

Record WorldGenerator : Type := {
  settings : WorldGenerationSettings T;
  continentNoise : T -> T -> T;
  mountainNoise : T -> T -> T;
  hillNoise : T -> T -> T;
  detailNoise : T -> T -> T;
  warpNoiseX : T -> T -> T;
  warpNoiseZ : T -> T -> T;
  ridgeNoise : T -> T -> T;
  valleyNoise : T -> T -> T;
  erosionNoise : T -> T -> T;
  underwaterNoise : T -> T -> T;
  plainsNoise : T -> T -> T;
  gentleNoise : T -> T -> T
}.

(** The constructor followed by [initializeNoiseGenerators]. *)
Definition initializeNoiseGenerators (s : WorldGenerationSettings T)
  : WorldGenerator :=
  let seed := seed s in
  {| settings := s;
     continentNoise := createNoise2D (alea (seed +:+ "_continent"));
     mountainNoise := createNoise2D (alea (seed +:+ "_mountain"));
     hillNoise := createNoise2D (alea (seed +:+ "_hill"));
     detailNoise := createNoise2D (alea (seed +:+ "_detail"));
     warpNoiseX := createNoise2D (alea (seed +:+ "_warpX"));
     warpNoiseZ := createNoise2D (alea (seed +:+ "_warpZ"));
     ridgeNoise := createNoise2D (alea (seed +:+ "_ridge"));
     valleyNoise := createNoise2D (alea (seed +:+ "_valley"));
     erosionNoise := createNoise2D (alea (seed +:+ "_erosion"));
     underwaterNoise := createNoise2D (alea (seed +:+ "_underwater"));
     plainsNoise := createNoise2D (alea (seed +:+ "_plains"));
     gentleNoise := createNoise2D (alea (seed +:+ "_gentle")) |}.

(** The body of the octave loop of [fractal], run [octaves] times on the
    four loop variables; it returns [value] and [maxValue]. *)
Fixpoint fractal_loop (octaves : nat) (x z : T) (noiseFunc : T -> T -> T)
    (persistence lacunarity : T)
    (value currentAmplitude currentScale maxValue : T) : T * T :=
  match octaves with
  | O => (value, maxValue)
  | S n =>
      fractal_loop n x z noiseFunc persistence lacunarity
        (value + noiseFunc (x * currentScale) (z * currentScale) * currentAmplitude)
        (currentAmplitude * persistence)
        (currentScale * lacunarity)
        (maxValue + currentAmplitude)
  end.

Definition fractal (x z : T) (noiseFunc : T -> T -> T) (octaves : nat)
    (scale amplitude persistence lacunarity : T) : T :=
  let '(value, maxValue) :=
    fractal_loop octaves x z noiseFunc persistence lacunarity
      #0 amplitude scale #0 in
  value / maxValue.

Definition ridged (x z : T) (noiseFunc : T -> T -> T)
    (scale amplitude sharpness : T) : T :=
  let n := noiseFunc (x * scale) (z * scale) in
  let ridged := #1 - Math_abs n in
  Math_pow ridged sharpness * amplitude.

Definition billow (x z : T) (noiseFunc : T -> T -> T)
    (scale amplitude : T) : T :=
  let n := noiseFunc (x * scale) (z * scale) in
  Math_abs n * amplitude.

Definition warp (g : WorldGenerator) (x z : T) : T * T :=
  let warpStrength := warpStrength (settings g) in
  let warpScale := warpScale (settings g) in
  let offsetX := fractal x z (warpNoiseX g) 3 warpScale (warpStrength * #0.8) #0.5 #2.1 in
  let offsetZ := fractal x z (warpNoiseZ g) 3 warpScale (warpStrength * #0.8) #0.5 #2.1 in
  (x + offsetX, z + offsetZ).

Definition smootherstep (a b t : T) : T :=
  let x := Math_max #0 (Math_min #1 ((t - a) / (b - a))) in
  x * x * x * (x * (x * #6 - #15) + #10).

Definition getHeightAt (g : WorldGenerator) (worldX worldZ : T) : T :=
  let '(wx, wz) := warp g worldX worldZ in
  (* 1. Continental base *)
  let continentScale := continentScale (settings g) in
  let continentAmp := continentAmplitude (settings g) * #1.5 in
  let continent := fractal wx wz (continentNoise g) 6 continentScale continentAmp #0.55 #2.2 in
  (* 2. Underwater terrain *)
  let underwaterBase := fractal wx wz (underwaterNoise g) 5 #0.003 #(-35) #0.6 #2.1 in
  let underwaterRidges := ridged wx wz (underwaterNoise g) #0.008 #(-20) #1.2 in
  let underwaterDetail := fractal wx wz (detailNoise g) 4 #0.025 #(-12) #0.5 #2.0 in
  let underwaterCanyons := billow wx wz (valleyNoise g) #0.004 #(-25) in
  let combinedUnderwater := underwaterBase + underwaterRidges + underwaterDetail + underwaterCanyons in
  let underwaterMask := smootherstep #0.2 #(-0.5) continent in
  let underwaterTerrain := combinedUnderwater * underwaterMask in
  (* 3. Mountains *)
  let mountainScale := mountainScale (settings g) in
  let mountainAmp := mountainAmplitude (settings g) * #3.0 in
  let primaryMountains := ridged wx wz (mountainNoise g) mountainScale mountainAmp #2.0 in
  let secondaryRidges := ridged (wx + #100) (wz + #50) (ridgeNoise g) (mountainScale * #1.3) (mountainAmp * #0.4) #1.6 in
  let tertiaryRidges := ridged (wx - #50) (wz + #150) (mountainNoise g) (mountainScale * #0.7) (mountainAmp * #0.6) #1.4 in
  let erosion := fractal wx wz (erosionNoise g) 5 (mountainScale * #4) #18 #0.45 #2.1 in
  let microErosion := fractal wx wz (detailNoise g) 3 (mountainScale * #8) #8 #0.35 #2.5 in
  let combinedMountains := primaryMountains + secondaryRidges + tertiaryRidges - erosion - microErosion in
  let mountainMask := smootherstep #(-0.1) #0.6 continent in
  (* 4. Coastal flattening *)
  let distanceFromWater := Math_max #0 (continent + #0.2) in
  let coastalFlattening := smootherstep #0.4 #0 distanceFromWater * #(-6) in
  (* 5. Plains layer *)
  let plainsBase := fractal wx wz (plainsNoise g) 4 #0.004 #8 #0.6 #2.0 in
  let gentleUndulation := fractal wx wz (gentleNoise g) 3 #0.008 #4 #0.5 #2.2 in
  let plainsLayer := (plainsBase + gentleUndulation) * #0.9 in
  (* 6. Valleys *)
  let valleyBase := billow wx wz (valleyNoise g) #0.006 #(-18) in
  let riverValleys := billow (wx + #200) (wz - #100) (valleyNoise g) #0.015 #(-12) in
  let combinedValleys := valleyBase + riverValleys in
  let valleyMask := smootherstep #(-0.2) #0.4 continent
                    * smootherstep #0 #15 (Math_abs (combinedMountains * mountainMask)) in
  (* 7. Hills *)
  let largeHills := fractal wx wz (hillNoise g) 4 #0.006 #25 #0.5 #2.1 in
  let mediumHills := fractal (wx + #75) (wz - #25) (hillNoise g) 3 #0.012 #15 #0.6 #2.0 in
  let rollingHills := fractal (wx - #30) (wz + #80) (detailNoise g) 2 #0.025 #8 #0.5 #2.2 in
  let combinedHills := largeHills + mediumHills + rollingHills in
  let hillMask := smootherstep #(-0.4) #0.3 continent in
  (* 8. Surface smoothing *)
  let smoothingLayer := fractal wx wz (gentleNoise g) 6 #0.02 #3.5 #0.4 #2.1 in
  (* 9. Surface details *)
  let detailScale := detailScale (settings g) in
  let detailAmp := detailAmplitude (settings g) * #1.2 in
  let surfaceDetails := fractal wx wz (detailNoise g) 5 detailScale detailAmp #0.45 #2.4 in
  let microDetails := fractal wx wz (detailNoise g) 3 (detailScale * #3) (detailAmp * #0.3) #0.4 #2.6 in
  (* 10. Plateaus *)
  let plateauBase := fractal wx wz (continentNoise g) 3 #0.004 #18 #0.7 #2.0 in
  let plateauMask := smootherstep #0.3 #0.7 continent in
  let plateaus := Math_max #0 plateauBase * plateauMask in
  (* Combine everything *)
  let height := waterLevel (settings g) in
  let height := height + continent in
  let height := height + underwaterTerrain in
  let height := height + coastalFlattening in
  let height := height + combinedMountains * mountainMask in
  let height := height + combinedValleys * valleyMask in
  let height := height + combinedHills * hillMask in
  let height := height + plainsLayer in
  let height := height + plateaus in
  let height := height + smoothingLayer in
  let height := height + (surfaceDetails + microDetails) in
  height.

End HeightField.

Arguments WorldGenerator : clear implicits.

(* ================================================================== *)
(** * Chunk mesh builder ([WorldGenerator.generateChunk], lines 218-331) *)
(* ================================================================== *)

(** [new Float32Array(xs)] stores every number rounded to binary32. *)
Definition Math_fround (x : float) : float :=
  match Prim2SF x with
  | S754_finite s m e =>
      SF2Prim (binary_normalize 24 128 (cond_Zopp s (Zpos m)) e s)
  | _ => x
  end.

Definition Float32Array (xs : list float) : list float := Math_fround <$> xs.

(** [new Uint32Array(xs)] stores every integer modulo 2^32. *)
Definition Uint32Array (xs : list Z) : list Z := (fun i => i mod 2 ^ 32) <$> xs.

(** What a read [heightMap[i][j]] with computed indices produces: the
    outer read of a missing row is [undefined] and indexing it throws; the
    inner read of a missing column is [undefined]. *)
Inductive cell : Type :=
| Throws
| Undefined
| Height (h : float).

(** What one iteration of the scatter loop does with its candidate. *)
Inductive placement : Type :=
| Throw
| Rejected
| NothingPlaced
| PlaceCube (c : Cube)
| PlaceBall (b : Ball).

Module WorldGenerator.
Section ChunkMeshBuilder.
Context {PRNG : Type}.
Variable alea : string -> PRNG.
Variable createNoise2D : PRNG -> float -> float -> float.
(** [Math.sin] and [Math.pow] of the host. *)
Variable Math_sin : float -> float.
Variable pow : float -> float -> float.

#[local] Instance binary64 : Number float := Float64 pow.
#[local] Open Scope num_scope.

Definition borderSize : Z := 2.

(** The world-space sample position of grid column (or row) [i] of the
    chunk whose origin on that axis is [world]: the expression
    [world + (i / meshResolution) * chunkSize] of lines 237-238. *)
Definition samplePosition (s : WorldGenerationSettings float) (world : float) (i : Z) : float :=
  world + (JS.of_Z i / JS.of_Z (meshResolution s)) * chunkSize s.

(** Lines 231-246: the border-inclusive height map, row [z + borderSize],
    column [x + borderSize]. *)
Definition heightMap (g : WorldGenerator float) (coordinate : ChunkCoordinate)
  : list (list float) :=
  let s := settings g in
  let resolution := (meshResolution s + 1)%Z in
  let worldX := JS.of_Z (ChunkCoordinate.x coordinate) * chunkSize s in
  let worldZ := JS.of_Z (ChunkCoordinate.z coordinate) * chunkSize s in
  (fun z =>
     (fun x =>
        let px := samplePosition s worldX x in
        let pz := samplePosition s worldZ z in
        getHeightAt g px pz)
     <$> seqZ (- borderSize) (resolution + 2 * borderSize))
  <$> seqZ (- borderSize) (resolution + 2 * borderSize).

(** Lines 242-244: the samples of the chunk proper, pushed in loop order. *)
Definition heightSamples (g : WorldGenerator float) (coordinate : ChunkCoordinate)
  : list float :=
  let s := settings g in
  let resolution := (meshResolution s + 1)%Z in
  let worldX := JS.of_Z (ChunkCoordinate.x coordinate) * chunkSize s in
  let worldZ := JS.of_Z (ChunkCoordinate.z coordinate) * chunkSize s in
  z ← seqZ (- borderSize) (resolution + 2 * borderSize);
  x ← seqZ (- borderSize) (resolution + 2 * borderSize);
  let px := samplePosition s worldX x in
  let pz := samplePosition s worldZ z in
  let h := getHeightAt g px pz in
  if (0 <=? x)%Z && (x <? resolution)%Z && (0 <=? z)%Z && (z <? resolution)%Z
  then [h] else [].

(** A read [heightMap[i][j]] whose indices are in range by construction;
    a missing entry would read as [undefined], which is NaN in arithmetic
    and in a [Float32Array]. *)
Definition heightMapAt (hm : list (list float)) (i j : Z) : float :=
  default nan (JS.element hm i ≫= fun row => JS.element row j).

(** Lines 248-256. *)
Definition vertexPositions (s : WorldGenerationSettings float)
    (hm : list (list float)) : list float :=
  let resolution := (meshResolution s + 1)%Z in
  z ← seqZ 0 resolution;
  x ← seqZ 0 resolution;
  let px := (JS.of_Z x / JS.of_Z (meshResolution s)) * chunkSize s in
  let pz := (JS.of_Z z / JS.of_Z (meshResolution s)) * chunkSize s in
  let h := heightMapAt hm (z + borderSize) (x + borderSize) in
  [px; h; pz].

(** Lines 258-277. *)
Definition vertexNormals (s : WorldGenerationSettings float)
    (hm : list (list float)) : list float :=
  let resolution := (meshResolution s + 1)%Z in
  z ← seqZ 0 resolution;
  x ← seqZ 0 resolution;
  let stepSize := chunkSize s / JS.of_Z (meshResolution s) in
  let hL := heightMapAt hm (z + borderSize) (x + borderSize - 1) in
  let hR := heightMapAt hm (z + borderSize) (x + borderSize + 1) in
  let hD := heightMapAt hm (z + borderSize - 1) (x + borderSize) in
  let hU := heightMapAt hm (z + borderSize + 1) (x + borderSize) in
  let normal_x := (hL - hR) / (#2 * stepSize) in
  let normal_y := #1 in
  let normal_z := (hD - hU) / (#2 * stepSize) in
  let length := PrimFloat.sqrt (normal_x * normal_x + normal_y * normal_y + normal_z * normal_z) in
  [normal_x / length; normal_y / length; normal_z / length].

(** Lines 279-290. *)
Definition triangleIndices (s : WorldGenerationSettings float) : list Z :=
  let resolution := (meshResolution s + 1)%Z in
  z ← seqZ 0 (meshResolution s);
  x ← seqZ 0 (meshResolution s);
  let topLeft := (z * resolution + x)%Z in
  let topRight := (topLeft + 1)%Z in
  let bottomLeft := ((z + 1) * resolution + x)%Z in
  let bottomRight := (bottomLeft + 1)%Z in
  [topLeft; bottomLeft; topRight; topRight; bottomLeft; bottomRight].

(** Lines 296-299. *)
Definition seededRandom (seed : float) : float :=
  let x := Math_sin seed * #10000 in
  x - JS.Math_floor x.

(** Line 301: [*] binds tighter than [^], whose operands go through
    [ToInt32]. *)
Definition prngSeed (coordinate : ChunkCoordinate) : Z :=
  Z.lxor (JS.ToInt32 (JS.of_Z (ChunkCoordinate.x coordinate) * #73856093))
         (JS.ToInt32 (JS.of_Z (ChunkCoordinate.z coordinate) * #19349663)).

(** Line 308: the read [heightMap[gridZ + borderSize][gridX + borderSize]]. *)
Definition terrainHeightAt (hm : list (list float)) (gridZ gridX : float) : cell :=
  match JS.as_index (gridZ + JS.of_Z borderSize) ≫= JS.element hm with
  | None => Throws
  | Some row =>
      match JS.as_index (gridX + JS.of_Z borderSize) ≫= JS.element row with
      | None => Undefined
      | Some h => Height h
      end
  end.

(** One scatter candidate (lines 304-320): the position drawn for the
    [i]-th iteration, the height read there and the decision taken.  A read
    of [undefined] fails the comparison with [waterLevel + 3]. *)
Definition candidate (s : WorldGenerationSettings float)
    (hm : list (list float)) (prngSeed : Z) (i : Z) : placement :=
  let rx := #5 + JS.Math_floor (seededRandom (JS.of_Z (prngSeed + i * 10)) * (chunkSize s - #10)) in
  let rz := #5 + JS.Math_floor (seededRandom (JS.of_Z (prngSeed + i * 10 + 1)) * (chunkSize s - #10)) in
  let gridX := JS.Math_floor ((rx / chunkSize s) * JS.of_Z (meshResolution s)) in
  let gridZ := JS.Math_floor ((rz / chunkSize s) * JS.of_Z (meshResolution s)) in
  match terrainHeightAt hm gridZ gridX with
  | Throws => Throw
  | Undefined => Rejected
  | Height terrainHeight =>
      if (waterLevel s + #3 <? terrainHeight)%float then
        let objectRandom := seededRandom (JS.of_Z (prngSeed + i * 10 + 2)) in
        if (#0.5 <? objectRandom)%float then
          let size := #0.6 + seededRandom (JS.of_Z (prngSeed + i * 10 + 3)) * #2.8 in
          PlaceCube (Cube.mk rx (terrainHeight + size * #0.5) rz size)
        else if (#0.3 <? objectRandom)%float then
          let radius := #0.3 + seededRandom (JS.of_Z (prngSeed + i * 10 + 4)) * #0.8 in
          PlaceBall (Ball.mk rx (terrainHeight + radius + #0.5) rz radius)
        else NothingPlaced
      else Rejected
  end.

(** What the iteration does to the two lists ([cubes.push], [balls.push]);
    [None] when the height read throws. *)
Definition placeCandidate (s : WorldGenerationSettings float)
    (hm : list (list float)) (prngSeed : Z) (i : Z)
    (acc : list Cube * list Ball) : option (list Cube * list Ball) :=
  let '(cubes, balls) := acc in
  match candidate s hm prngSeed i with
  | Throw => None
  | Rejected | NothingPlaced => Some (cubes, balls)
  | PlaceCube c => Some (cubes ++ [c], balls)
  | PlaceBall b => Some (cubes, balls ++ [b])
  end.

(** Lines 303-321: the loop [for (let i = 0; i < 8; i++)]. *)
Definition scatter (s : WorldGenerationSettings float) (hm : list (list float))
    (coordinate : ChunkCoordinate) : option (list Cube * list Ball) :=
  foldl (fun acc i => acc ≫= placeCandidate s hm (prngSeed coordinate) i)
        (Some ([], [])) (seqZ 0 8).

(** [generateChunk]; [None] when the scatter loop throws. *)
Definition generateChunk (g : WorldGenerator float) (coordinate : ChunkCoordinate)
  : option TerrainData :=
  let s := settings g in
  let hm := heightMap g coordinate in
  let heights := heightSamples g coordinate in
  let vertices := vertexPositions s hm in
  let normals := vertexNormals s hm in
  let indices := triangleIndices s in
  '(cubes, balls) ← scatter s hm coordinate;
  Some {| vertices := Float32Array vertices;
          indices := Uint32Array indices;
          normals := Float32Array normals;
          heights := Float32Array heights;
          cubes := cubes;
          balls := balls |}.

End ChunkMeshBuilder.
End WorldGenerator.

(* ================================================================== *)
(** * Height sampling ([sampleTerrainHeightAt.ts]) *)
(* ================================================================== *)

(** What the function can hand back: a number, [null], or the [undefined]
    of an out-of-range typed-array read. *)
Inductive value : Type :=
| VNull
| VUndefined
| VNumber (h : float).

(** [xs[i]] on a typed array. *)
Definition typedArrayGet (xs : list float) (i : JS.integral) : value :=
  match i with
  | JS.IInt k =>
      match JS.element xs k with
      | Some h => VNumber h
      | None => VUndefined
      end
  | _ => VUndefined
  end.

(** [Math.round(Math.sqrt(vertices.length / 3))], line 14. *)
Definition gridResolution (length : Z) : JS.integral :=
  JS.Math_round (PrimFloat.sqrt (JS.of_Z length / JS.of_Z 3)).

(** The argument of [Math.round] on lines 26 and 27. *)
Definition gridCoordinate (local step gridSize : float) : float :=
  ((local / (step * gridSize)) * gridSize)%float.

(** Lines 23-25: [chunk.mesh ? (boundingBox?.max.x ?? 1) / gridSize : 1]. *)
Definition sampleStep (chunk : WorldChunk) (gridSize : float) : float :=
  match mesh chunk with
  | Some m => (default 1%float (boundingBox m) / gridSize)%float
  | None => 1%float
  end.

(** [Math.max(0, Math.min(gridSize, Math.round(t)))]. *)
Definition clampToGrid (gridSize : JS.integral) (t : float) : JS.integral :=
  JS.imax (JS.IInt 0) (JS.imin gridSize (JS.Math_round t)).

(** Lines 28-31: the position [idx * 3 + 1] of the Y component of vertex
    [idx = normZ * res + normX]. *)
Definition vertexSlot (normX normZ res : JS.integral) : JS.integral :=
  let idx := JS.iadd (JS.imul normZ res) normX in
  JS.iadd (JS.imul idx (JS.IInt 3)) (JS.IInt 1).

Definition sampleTerrainHeightAt (chunk : WorldChunk) (terrainData : TerrainData)
    (worldX worldZ : float) : value :=
  let position := position chunk in
  let vertices := vertices terrainData in
  let length := Z.of_nat (length vertices) in
  let res := gridResolution length in
  if JS.iltb res (JS.IInt 2) then VNull else
  (* Convert worldX/worldZ to local chunk coordinates *)
  let localX := (worldX - Vector3.x position)%float in
  let localZ := (worldZ - Vector3.z position)%float in
  (* Clamp to grid *)
  let gridSize := JS.isub res (JS.IInt 1) in
  let step := sampleStep chunk (JS.to_float gridSize) in
  let normX := clampToGrid gridSize (gridCoordinate localX step (JS.to_float gridSize)) in
  let normZ := clampToGrid gridSize (gridCoordinate localZ step (JS.to_float gridSize)) in
  let at_y := vertexSlot normX normZ res in
  if JS.iltb at_y (JS.IInt length) then typedArrayGet vertices at_y
  else VNull.

(** A decidable property checked on the [2 ^ depth] integers from [lo] on,
    by halving. *)
Fixpoint holds_on_block (P : Z -> bool) (depth : nat) (lo : Z) : bool :=
  match depth with
  | O => P lo
  | S d => holds_on_block P d lo && holds_on_block P d (lo + 2 ^ Z.of_nat d)
  end.

(** The resolution check of line 14 on a square grid of side [r]. *)
Definition square_resolution_ok (r : Z) : bool :=
  match gridResolution (3 * r * r) with
  | JS.IInt k => k =? r
  | _ => false
  end.

(* ================================================================== *)
(** * Chunk bookkeeping ([ChunkManager]) *)
(* ================================================================== *)

(** [WorldChunk]s are objects: the resident table, the React state and the
    props of a [TerrainChunk] hold references to them.  The store lists the
    objects allocated so far; a reference is a position in it. *)
Abbreviation ref := nat (only parsing).
Abbreviation store := (list WorldChunk) (only parsing).

Module ChunkManager.

Record WorldState : Type := {
  playerChunk : ChunkCoordinate;
  loadedChunks : gmap string ref;
  visibleChunks : gset string;
  generationQueue : list ChunkCoordinate
}.

(** The manager; its [generator] field is constructed and never consulted
    by the operations below. *)
Record t : Type := {
  settings : WorldGenerationSettings float;
  worldState : WorldState
}.

Definition new (settings : WorldGenerationSettings float) : t :=
  {| settings := settings;
     worldState := {| playerChunk := ChunkCoordinate.mk 0 0;
                      loadedChunks := ∅;
                      visibleChunks := ∅;
                      generationQueue := [] |} |}.

Record UpdateResult : Type := {
  chunksToLoad : list ChunkCoordinate;
  chunksToUnload : list string;
  playerChunkChanged : bool
}.

(** [`${coord.x},${coord.z}`] *)
Definition chunkKey (coord : ChunkCoordinate) : string :=
  pretty (ChunkCoordinate.x coord) +:+ "," +:+ pretty (ChunkCoordinate.z coord).

(** A position has a chunk coordinate when both quotients are finite. *)
Definition worldToChunk (this : t) (worldPos : Vector3) : option ChunkCoordinate :=
  x ← JS.as_integer (JS.Math_floor (Vector3.x worldPos / chunkSize (settings this)));
  z ← JS.as_integer (JS.Math_floor (Vector3.z worldPos / chunkSize (settings this)));
  Some (ChunkCoordinate.mk x z).

Definition chunkToWorld (this : t) (coord : ChunkCoordinate) : Vector3 :=
  Vector3.mk (JS.of_Z (ChunkCoordinate.x coord) * chunkSize (settings this))
             0
             (JS.of_Z (ChunkCoordinate.z coord) * chunkSize (settings this)).

Definition getRequiredChunks (this : t) (playerChunk : ChunkCoordinate)
  : list ChunkCoordinate :=
  let radius := renderDistance (settings this) `div` 2 in
  x ← seqZ (ChunkCoordinate.x playerChunk - radius) (2 * radius + 1);
  z ← seqZ (ChunkCoordinate.z playerChunk - radius) (2 * radius + 1);
  [ChunkCoordinate.mk x z].

(** The body of [updatePlayerPosition] once the player's chunk is known. *)
Definition updatePlayerChunk (newPlayerChunk : ChunkCoordinate) (this : t)
  : UpdateResult * t :=
  let ws := worldState this in
  let playerChunkChanged :=
    negb (ChunkCoordinate.x newPlayerChunk =? ChunkCoordinate.x (playerChunk ws))
    || negb (ChunkCoordinate.z newPlayerChunk =? ChunkCoordinate.z (playerChunk ws)) in
  let playerChunk' := if playerChunkChanged then newPlayerChunk else playerChunk ws in
  let requiredChunks := getRequiredChunks this newPlayerChunk in
  let requiredKeys : gset string := list_to_set (chunkKey <$> requiredChunks) in
  (* Find chunks to load *)
  let chunksToLoad :=
    filter (fun coord => loadedChunks ws !! chunkKey coord = None) requiredChunks in
  (* Find chunks to unload *)
  let chunksToUnload :=
    filter (fun key => key ∉ requiredKeys) (fst <$> map_to_list (loadedChunks ws)) in
  ({| chunksToLoad := chunksToLoad;
      chunksToUnload := chunksToUnload;
      playerChunkChanged := playerChunkChanged |},
   {| settings := settings this;
      worldState := {| playerChunk := playerChunk';
                       loadedChunks := loadedChunks ws;
                       (* Update visible chunks *)
                       visibleChunks := requiredKeys;
                       generationQueue := generationQueue ws |} |}).

Definition updatePlayerPosition (worldPosition : Vector3) (this : t)
  : option (UpdateResult * t) :=
  newPlayerChunk ← worldToChunk this worldPosition;
  Some (updatePlayerChunk newPlayerChunk this).

Definition setLoadedChunks (m : gmap string ref) (this : t) : t :=
  {| settings := settings this;
     worldState := {| playerChunk := playerChunk (worldState this);
                      loadedChunks := m;
                      visibleChunks := visibleChunks (worldState this);
                      generationQueue := generationQueue (worldState this) |} |}.

(** [generateChunk]: a fresh object is allocated and registered. *)
Definition generateChunk (coordinate : ChunkCoordinate) (this : t) (objects : store)
  : ref * t * store :=
  let position := chunkToWorld this coordinate in
  let chunk := {| coordinate := coordinate;
                  position := position;
                  isLoaded := false;
                  isVisible := true;
                  mesh := None;
                  needsUpdate := true |} in
  let key := chunkKey coordinate in
  let r := length objects in
  (r, setLoadedChunks (<[key := r]> (loadedChunks (worldState this))) this,
   objects ++ [chunk]).

Definition getChunk (coordinate : ChunkCoordinate) (this : t) : option ref :=
  loadedChunks (worldState this) !! chunkKey coordinate.

Definition unloadChunk (key : string) (this : t) : t :=
  setLoadedChunks (delete key (loadedChunks (worldState this))) this.

Definition getLoadedChunks (this : t) : list ref :=
  snd <$> map_to_list (loadedChunks (worldState this)).

End ChunkManager.

(* ================================================================== *)
(** * The coordinator ([WorldManager], [useTerrainWorker], [TerrainChunk]) *)
(* ================================================================== *)

Module WorldManager.

(** The refs and state of the component, the object store, the resolvers
    that [useTerrainWorker] keeps per key, and the log of the calls of
    [requestChunk] (oldest first). *)
Record t : Type := {
  finalSettings : WorldGenerationSettings float;
  chunkManagerRef : ChunkManager.t;
  objects : store;
  loadedChunks : list ref;
  ready : bool;
  loadedChunkCoords : gset string;
  chunkTerrainData : gmap string TerrainData;
  loadingChunks : gset string;
  pending : gmap string ChunkCoordinate;
  requested : list ChunkCoordinate
}.

Definition key_of (coord : ChunkCoordinate) : string :=
  pretty (ChunkCoordinate.x coord) +:+ "," +:+ pretty (ChunkCoordinate.z coord).

(** Lines 75-82: the effect run when the component mounts and whenever a
    setting changes. *)
Definition resetEffect (finalSettings : WorldGenerationSettings float)
    (objects : store) (pending : gmap string ChunkCoordinate)
    (requested : list ChunkCoordinate) : t :=
  {| finalSettings := finalSettings;
     chunkManagerRef := ChunkManager.new finalSettings;
     objects := objects;
     loadedChunks := [];
     ready := false;
     loadedChunkCoords := ∅;
     chunkTerrainData := ∅;
     loadingChunks := ∅;
     pending := pending;
     requested := requested |}.

Definition mount (finalSettings : WorldGenerationSettings float) : t :=
  resetEffect finalSettings [] ∅ [].

(** [requestChunk] of [useTerrainWorker]: the resolver is filed under the
    key and the message is posted. *)
Definition requestChunk (coord : ChunkCoordinate) (w : t) : t :=
  {| finalSettings := finalSettings w;
     chunkManagerRef := chunkManagerRef w;
     objects := objects w;
     loadedChunks := loadedChunks w;
     ready := ready w;
     loadedChunkCoords := loadedChunkCoords w;
     chunkTerrainData := chunkTerrainData w;
     loadingChunks := loadingChunks w;
     pending := <[key_of coord := coord]> (pending w);
     requested := requested w ++ [coord] |}.

(** Lines 143-152 (and 170-179): the body of [chunksToLoad.forEach]. *)
Definition requestIfAbsent (w : t) (coord : ChunkCoordinate) : t :=
  let key := key_of coord in
  if decide ((key ∉ dom (chunkTerrainData w)) ∧ (key ∉ loadingChunks w)) then
    requestChunk coord
      {| finalSettings := finalSettings w;
         chunkManagerRef := chunkManagerRef w;
         objects := objects w;
         loadedChunks := loadedChunks w;
         ready := ready w;
         loadedChunkCoords := loadedChunkCoords w;
         chunkTerrainData := chunkTerrainData w;
         loadingChunks := {[key]} ∪ loadingChunks w;
         pending := pending w;
         requested := requested w |}
  else w.

(** Lines 156-159: the body of [chunksToUnload.forEach]. *)
Definition unload (w : t) (key : string) : t :=
  {| finalSettings := finalSettings w;
     chunkManagerRef := ChunkManager.unloadChunk key (chunkManagerRef w);
     objects := objects w;
     loadedChunks := loadedChunks w;
     ready := ready w;
     loadedChunkCoords := loadedChunkCoords w ∖ {[key]};
     chunkTerrainData := delete key (chunkTerrainData w);
     loadingChunks := loadingChunks w ∖ {[key]};
     pending := pending w;
     requested := requested w |}.

(** [setLoadedChunks(chunkManagerRef.current.getLoadedChunks())]. *)
Definition refreshLoadedChunks (w : t) : t :=
  {| finalSettings := finalSettings w;
     chunkManagerRef := chunkManagerRef w;
     objects := objects w;
     loadedChunks := ChunkManager.getLoadedChunks (chunkManagerRef w);
     ready := ready w;
     loadedChunkCoords := loadedChunkCoords w;
     chunkTerrainData := chunkTerrainData w;
     loadingChunks := loadingChunks w;
     pending := pending w;
     requested := requested w |}.

Definition setChunkManager (cm : ChunkManager.t) (w : t) : t :=
  {| finalSettings := finalSettings w;
     chunkManagerRef := cm;
     objects := objects w;
     loadedChunks := loadedChunks w;
     ready := ready w;
     loadedChunkCoords := loadedChunkCoords w;
     chunkTerrainData := chunkTerrainData w;
     loadingChunks := loadingChunks w;
     pending := pending w;
     requested := requested w |}.

(** Lines 137-163: one pass of the frame loop on an initialised
    component.  [None]: the player position has no chunk coordinate. *)
Definition useFrame (playerPosition : Vector3) (w : t) : option t :=
  '(updateResult, cm) ← ChunkManager.updatePlayerPosition playerPosition (chunkManagerRef w);
  let w := setChunkManager cm w in
  let w := foldl requestIfAbsent w (ChunkManager.chunksToLoad updateResult) in
  let w := foldl unload w (ChunkManager.chunksToUnload updateResult) in
  Some (refreshLoadedChunks w).

(** Lines 165-182: the effect that loads the chunks around the origin. *)
Definition spawnEffect (w : t) : option t :=
  let spawnPosition := Vector3.mk 0 0 0 in
  '(updateResult, cm) ← ChunkManager.updatePlayerPosition spawnPosition (chunkManagerRef w);
  let w := setChunkManager cm w in
  let w := foldl requestIfAbsent w (ChunkManager.chunksToLoad updateResult) in
  Some (refreshLoadedChunks w).

(** Lines 146-151: the continuation of [requestChunk(coord)], with [coord]
    and [key] as captured when the request was made. *)
Definition onTerrainData (coord : ChunkCoordinate) (terrainData : TerrainData)
    (w : t) : t :=
  let key := key_of coord in
  let '(_, cm, objects') :=
    ChunkManager.generateChunk coord (chunkManagerRef w) (objects w) in
  {| finalSettings := finalSettings w;
     chunkManagerRef := cm;
     objects := objects';
     loadedChunks := ChunkManager.getLoadedChunks cm;
     ready := ready w;
     loadedChunkCoords := loadedChunkCoords w;
     chunkTerrainData := <[key := terrainData]> (chunkTerrainData w);
     loadingChunks := loadingChunks w ∖ {[key]};
     pending := pending w;
     requested := requested w |}.

(** [worker.onmessage] of [useTerrainWorker]: the resolver filed under the
    key of the answer, if there is one, is removed and run. *)
Definition onWorkerMessage (coordinate : ChunkCoordinate) (terrain : TerrainData)
    (w : t) : t :=
  let key := key_of coordinate in
  match pending w !! key with
  | Some coord =>
      onTerrainData coord terrain
        {| finalSettings := finalSettings w;
           chunkManagerRef := chunkManagerRef w;
           objects := objects w;
           loadedChunks := loadedChunks w;
           ready := ready w;
           loadedChunkCoords := loadedChunkCoords w;
           chunkTerrainData := chunkTerrainData w;
           loadingChunks := loadingChunks w;
           pending := delete key (pending w);
           requested := requested w |}
  | None => w
  end.

(** Lines 101-135: [handleChunkLoaded]; the spawn point it hands to the
    [onReady] callback of the application is not part of this state. *)
Definition handleChunkLoaded (chunk : WorldChunk) (w : t) : t :=
  let key := key_of (coordinate chunk) in
  let loadedChunkCoords' := {[key]} ∪ loadedChunkCoords w in
  let requiredChunkCount :=
    renderDistance (finalSettings w) * renderDistance (finalSettings w) in
  {| finalSettings := finalSettings w;
     chunkManagerRef := chunkManagerRef w;
     objects := objects w;
     loadedChunks := loadedChunks w;
     ready := if negb (ready w) && (requiredChunkCount <=? Z.of_nat (size loadedChunkCoords'))
              then true else ready w;
     loadedChunkCoords := loadedChunkCoords';
     chunkTerrainData := chunkTerrainData w;
     loadingChunks := loadingChunks w;
     pending := pending w;
     requested := requested w |}.

Definition setObjects (objects : store) (w : t) : t :=
  {| finalSettings := finalSettings w;
     chunkManagerRef := chunkManagerRef w;
     objects := objects;
     loadedChunks := loadedChunks w;
     ready := ready w;
     loadedChunkCoords := loadedChunkCoords w;
     chunkTerrainData := chunkTerrainData w;
     loadingChunks := loadingChunks w;
     pending := pending w;
     requested := requested w |}.

(** [TerrainChunk], lines 155-161: the effect of the component rendered
    for the chunk object [chunk], run with [meshRef.current]. *)
Definition terrainChunkEffect (chunk : ref) (meshRef : option Mesh) (w : t) : t :=
  match objects w !! chunk, meshRef with
  | Some c, Some m =>
      if negb (isLoaded c) then
        let c' := {| coordinate := coordinate c;
                     position := position c;
                     isLoaded := true;
                     isVisible := isVisible c;
                     mesh := Some m;
                     needsUpdate := needsUpdate c |} in
        handleChunkLoaded c' (setObjects (<[chunk := c']> (objects w)) w)
      else w
  | _, _ => w
  end.

(** [getTerrainDataAt], lines 62-72. *)
Definition getTerrainDataAt (worldX worldZ : float) (w : t)
  : option (WorldChunk * TerrainData) :=
  let chunkSize := chunkSize (finalSettings w) in
  x ← JS.as_integer (JS.Math_floor (worldX / chunkSize));
  z ← JS.as_integer (JS.Math_floor (worldZ / chunkSize));
  let key := key_of (ChunkCoordinate.mk x z) in
  r ← ChunkManager.getChunk (ChunkCoordinate.mk x z) (chunkManagerRef w);
  chunk ← objects w !! r;
  terrain ← chunkTerrainData w !! key;
  Some (chunk, terrain).

(** What can happen to the component between two renders. *)
Inductive event : Type :=
| Frame (playerPosition : Vector3)
| WorkerMessage (coordinate : ChunkCoordinate) (terrain : TerrainData)
| MeshMounted (chunk : ref) (meshRef : option Mesh).

Definition step (e : event) (w : t) : option t :=
  match e with
  | Frame playerPosition => useFrame playerPosition w
  | WorkerMessage coordinate terrain => Some (onWorkerMessage coordinate terrain w)
  | MeshMounted chunk meshRef => Some (terrainChunkEffect chunk meshRef w)
  end.

(** A run of events from a state; [None] as soon as one of them has no
    successor. *)
Definition run (es : list event) (w : t) : option t :=
  foldl (fun o e => o ≫= step e) (Some w) es.

End WorldManager.

(* ================================================================== *)
(** * Concrete inputs used by the examples *)
(* ================================================================== *)

(** A chunk at the origin whose mesh is not mounted yet. *)
Definition flatChunk : WorldChunk :=
  {| coordinate := ChunkCoordinate.mk 0 0; position := Vector3.mk 0 0 0;
     isLoaded := false; isVisible := true; mesh := None; needsUpdate := true |}.

(** Terrain data of a 2 x 2 grid: four vertices, twelve numbers. *)
Definition quad : TerrainData :=
  {| heights := []; normals := [];
     vertices := [0; 1; 0;  1; 2; 0;  0; 3; 1;  1; 4; 1]%float;
     indices := []; cubes := []; balls := [] |}.

(** The settings of the test scenario of the specification (the fields it
    leaves open take the defaults of [WorldManager.tsx]). *)
Definition scenarioSettings : WorldGenerationSettings float :=
  {| seed := "test";
     chunkSize := 128%float;
     meshResolution := 4;
     waterLevel := 10%float;
     continentScale := JS.of_Q 0.002;
     continentAmplitude := 40%float;
     mountainScale := JS.of_Q 0.02;
     mountainAmplitude := 32%float;
     mountainSharpness := JS.of_Q 1.2;
     detailScale := JS.of_Q 0.07;
     detailAmplitude := 8%float;
     warpScale := JS.of_Q 0.06;
     warpStrength := 30%float;
     renderDistance := 3 |}.

Definition withRenderDistance (R : Z) (s : WorldGenerationSettings float)
  : WorldGenerationSettings float :=
  {| seed := seed s;
     chunkSize := chunkSize s;
     meshResolution := meshResolution s;
     waterLevel := waterLevel s;
     continentScale := continentScale s;
     continentAmplitude := continentAmplitude s;
     mountainScale := mountainScale s;
     mountainAmplitude := mountainAmplitude s;
     mountainSharpness := mountainSharpness s;
     detailScale := detailScale s;
     detailAmplitude := detailAmplitude s;
     warpScale := warpScale s;
     warpStrength := warpStrength s;
     renderDistance := R |}.

Definition origin : Vector3 := Vector3.mk 0 0 0.

(** ** Keys *)

(** No character of the string is a comma. *)
Fixpoint comma_free (s : string) : bool :=
  match s with
  | EmptyString => true
  | String a s' => negb (Ascii.eqb a ","%char) && comma_free s'
  end.

(** ** Specification vocabulary for height sampling *)

(** [n - 1/2 <= t < n + 1/2] for the exact value of the finite number [t]:
    [n] is the integer nearest to [t], the upper one of two at equal
    distance. *)
Definition is_nearest_integer (t : float) (n : Z) : Prop :=
  match Prim2SF t with
  | S754_zero _ => n = 0
  | S754_finite s m e =>
      let v := cond_Zopp s (Zpos m) in
      if e <? 0
      then (2 * n - 1) * 2 ^ (- e - 1) <= v < (2 * n + 1) * 2 ^ (- e - 1)
      else n = v * 2 ^ e
  | _ => False
  end.

(** [nx] is the index of a grid of side [r] selected by the grid coordinate
    [t]: the nearest integer brought into [0, r - 1]; the infinities select
    the two ends and NaN selects nothing. *)
Definition is_clamped_index (r : Z) (t : float) (nx : Z) : Prop :=
  match Prim2SF t with
  | S754_nan => False
  | S754_infinity true => nx = 0
  | S754_infinity false => nx = r - 1
  | _ => exists k, is_nearest_integer t k /\ nx = Z.max 0 (Z.min (r - 1) k)
  end.

(** The squared distance in the plane from the point [(x, z)] to vertex
    [i] of a vertex array, when the array holds that vertex. *)
Definition vertexDistance2 (vs : list float) (i : nat) (x z : float) : option float :=
  vx ← vs !! (3 * i)%nat;
  vz ← vs !! (3 * i + 2)%nat;
  Some ((vx - x) * (vx - x) + (vz - z) * (vz - z))%float.

(** Terrain data of a 3 x 3 grid with vertex spacing 32; vertex [i] has
    height [100 + i]. *)
Definition grid3 : TerrainData :=
  {| heights := []; normals := [];
     vertices := [ 0; 100;  0;  32; 101;  0;  64; 102;  0;
                   0; 103; 32;  32; 104; 32;  64; 105; 32;
                   0; 106; 64;  32; 107; 64;  64; 108; 64]%float;
     indices := []; cubes := []; balls := [] |}.

(** The calls of [requestChunk] made between two states of the component. *)
Definition requestsSince (w w' : WorldManager.t) : list ChunkCoordinate :=
  drop (length (WorldManager.requested w)) (WorldManager.requested w').

(** A position ten chunks east of the origin, and the chunk at the origin. *)
Definition farEast : Vector3 := Vector3.mk 1280 0 0.
Definition originChunk : ChunkCoordinate := ChunkCoordinate.mk 0 0.

(** The state of the component mounted with the scenario settings after a
    run of events. *)
Definition stateAfter (es : list WorldManager.event) : WorldManager.t :=
  default (WorldManager.mount scenarioSettings)
          (WorldManager.run es (WorldManager.mount scenarioSettings)).

(** A mounted mesh whose bounding box spans one chunk of the scenario. *)
Definition mountedMesh : Mesh := {| boundingBox := Some 128%float |}.

(** ** Inputs of the scatter examples *)

(** The values of [Math.sin] at the forty seeds [10 * i + k] ([i < 8],
    [k < 5]) that the scatter loop of the chunk at the origin draws, as
    binary64 (for instance [Math.sin(12) = -0.5365729180004349]). *)
Definition sineTable : list (Z * float) :=
  [
    (0, 0x0.0p+0%float);
    (1, 0x1.aed548f090ceep-1%float);
    (2, 0x1.d18f6ead1b446p-1%float);
    (3, 0x1.210386db6d55bp-3%float);
    (4, (-0x1.837b9dddc1eaep-1)%float);
    (10, (-0x1.1689ef5f34f52p-1)%float);
    (11, (-0x1.fffeb762e93ebp-1)%float);
    (12, (-0x1.12b9af7d765a5p-1)%float);
    (13, 0x1.ae4044881c506p-2%float);
    (14, 0x1.fb30e327c5e45p-1%float);
    (20, 0x1.d36d8f55d3ce0p-1%float);
    (21, 0x1.ac5e20bb0d7edp-1%float);
    (22, (-0x1.220a29f6eb9f4p-7)%float);
    (23, (-0x1.b143cd0247d02p-1)%float);
    (24, (-0x1.cfa7f7919140fp-1)%float);
    (30, (-0x1.f9df47f1c903dp-1)%float);
    (31, (-0x1.9dbc0b640fc81p-2)%float);
    (32, 0x1.1a54991426566p-1%float);
    (33, 0x1.fff4728416238p-1%float);
    (34, 0x1.0ee3ed0387da1p-1%float);
    (40, 0x1.7d7f78e027f00p-1%float);
    (41, (-0x1.44dbf6375d1c8p-3)%float);
    (42, (-0x1.d5424ff4c0fedp-1)%float);
    (43, (-0x1.a9de610a75113p-1)%float);
    (44, 0x1.22074159db041p-6%float);
    (50, (-0x1.0cabfe5fcdfc8p-2)%float);
    (51, 0x1.5728474e25082p-1%float);
    (52, 0x1.f92740724a4c7p-1%float);
    (53, 0x1.956d670ec78b0p-2%float);
    (54, (-0x1.1e1999245c7cap-1)%float);
    (60, (-0x1.382046846e0c2p-2)%float);
    (61, (-0x1.eea6fd048a7eap-1)%float);
    (62, (-0x1.7a75e46be2c4fp-1)%float);
    (63, 0x1.56be95dccc40dp-3%float);
    (64, 0x1.d70da7230c1d8p-1%float);
    (70, 0x1.8c3b663ff0c91p-1%float);
    (71, 0x1.e6f0a2b0df504p-1%float);
    (72, 0x1.03ea458818423p-2%float);
    (73, (-0x1.5a81da9b5ca00p-1)%float);
    (74, (-0x1.f8651734f9c39p-1)%float)
  ].

(** [Math.sin] restricted to the seeds of a table (0 elsewhere). *)
Definition sineOn (table : list (Z * float)) (x : float) : float :=
  match JS.as_integer x with
  | Some n => default 0%float (snd <$> find (fun p => fst p =? n) table)
  | None => 0%float
  end.

(** [Math.pow] restricted to the bases 0 and 1, where [b ** e = b] for every
    positive exponent. *)
Definition powOnUnit (b e : float) : float := b.

(** A generator whose twelve noise fields are constantly 1: the ground is
    level, about 7.2 above the water level of the scenario. *)
Definition levelGround : WorldGenerator float :=
  initializeNoiseGenerators (fun seed : string => seed) (fun _ _ _ => 1%float)
    scenarioSettings.

(** The cubes and the balls among a list of placements, in order. *)
Definition cubesPlaced (ps : list placement) : list Cube :=
  omap (fun p => match p with PlaceCube c => Some c | _ => None end) ps.

Definition ballsPlaced (ps : list placement) : list Ball :=
  omap (fun p => match p with PlaceBall b => Some b | _ => None end) ps.

(** A candidate is accepted when the height read at its grid cell is above
    [waterLevel + 3]. *)
Definition accepted (p : placement) : bool :=
  match p with
  | NothingPlaced | PlaceCube _ | PlaceBall _ => true
  | Throw | Rejected => false
  end.

Definition throws (p : placement) : bool :=
  match p with Throw => true | _ => false end.

(** ** Vocabulary of the reproducibility statement *)

(** Two settings values agree on every field that the generator reads:
    all of them except [mountainSharpness] and [renderDistance]. *)
Definition sameGenerationInputs {T : Type} (s1 s2 : WorldGenerationSettings T) : Prop :=
  seed s1 = seed s2
  /\ chunkSize s1 = chunkSize s2
  /\ meshResolution s1 = meshResolution s2
  /\ waterLevel s1 = waterLevel s2
  /\ continentScale s1 = continentScale s2
  /\ continentAmplitude s1 = continentAmplitude s2
  /\ mountainScale s1 = mountainScale s2
  /\ mountainAmplitude s1 = mountainAmplitude s2
  /\ detailScale s1 = detailScale s2
  /\ detailAmplitude s1 = detailAmplitude s2
  /\ warpScale s1 = warpScale s2
  /\ warpStrength s1 = warpStrength s2.

(** ** Inputs of the seam examples *)

(** The values of [Math.sin] at the seeds that the scatter loops of the
    chunks (5, 0) and (6, 0) draw: [369280465 + 10 i + k] and
    [443136558 + 10 i + k] for [i < 8], [k < 5]. *)
Definition seamSineTable : list (Z * float) :=
  [
    (369280465, 0x1.415199d0e27b9p-1%float);
    (369280466, (-0x1.43a2f4e62a53fp-2)%float);
    (369280467, (-0x1.f02e29ec0a908p-1)%float);
    (369280468, (-0x1.765b41f41bab0p-1)%float);
    (369280469, 0x1.6e9891cff8e4fp-3%float);
    (369280475, (-0x1.a60308433253cp-4)%float);
    (369280476, 0x1.9009e1b740661p-1%float);
    (369280477, 0x1.e508f83075e1fp-1%float);
    (369280478, 0x1.f05eb7aac6639p-3%float);
    (369280479, (-0x1.5ef0ab2db6bdap-1)%float);
    (369280485, (-0x1.d196a44e9e194p-2)%float);
    (369280486, (-0x1.fd80f428be61ap-1)%float);
    (369280487, (-0x1.3dc72163c7899p-1)%float);
    (369280488, 0x1.4c39181506ba6p-2%float);
    (369280489, 0x1.f1475a2114009p-1%float);
    (369280495, 0x1.bb69da6630a43p-1%float);
    (369280496, 0x1.c6fb4630c9e32p-1%float);
    (369280497, 0x1.81eeec28f21a4p-4%float);
    (369280498, (-0x1.92d9f3e8cc73ap-1)%float);
    (369280499, (-0x1.e3909160e830cp-1)%float);
    (369280505, (-0x1.ff5129e8c8429p-1)%float);
    (369280506, (-0x1.fc0a7029b5334p-2)%float);
    (369280507, 0x1.d9a49451a8e14p-2%float);
    (369280508, 0x1.fdee446d6f1f3p-1%float);
    (369280509, 0x1.3a3649502f9c3p-1%float);
    (369280515, 0x1.9ea65040b03d7p-1%float);
    (369280516, (-0x1.cb2f10e5f1bb7p-5)%float);
    (369280517, (-0x1.bda973d65edcbp-1)%float);
    (369280518, (-0x1.c4e2a59a47dd4p-1)%float);
    (369280519, (-0x1.5dd312756c278p-4)%float);
    (369280525, (-0x1.710c7ef8a825ep-2)%float);
    (369280526, 0x1.2e2e702af9e17p-1%float);
    (369280527, 0x1.ff10220d8333cp-1%float);
    (369280528, 0x1.f426bc7dd4fb3p-2%float);
    (369280529, (-0x1.e1a90461b7d57p-2)%float);
    (369280535, (-0x1.a3f71a27a8e8bp-3)%float);
    (369280536, (-0x1.de6795984bc81p-1)%float);
    (369280537, (-0x1.9bf9955462796p-1)%float);
    (369280538, 0x1.09c7e8bcc3862p-4%float);
    (369280539, 0x1.bfe01cff179ccp-1%float);
    (443136558, (-0x1.c154cf81f63dfp-1)%float);
    (443136559, (-0x1.c150313f4b9ddp-1)%float);
    (443136560, (-0x1.2196e5b505b6fp-4)%float);
    (443136561, 0x1.9a3260ddc32e9p-1%float);
    (443136562, 0x1.df758fb2e425fp-1%float);
    (443136568, 0x1.fe8cfc9faa821p-1%float);
    (443136569, 0x1.e6eaadae97f94p-2%float);
    (443136570, (-0x1.eeefe029d8cf3p-2)%float);
    (443136571, (-0x1.fedfbc42b0777p-1)%float);
    (443136572, (-0x1.309591dd8002bp-1)%float);
    (443136578, (-0x1.977224a473796p-1)%float);
    (443136579, 0x1.460adb2747a5ep-4%float);
    (443136580, 0x1.c37c7a11c490dp-1%float);
    (443136581, 0x1.bf1f7074f419fp-1%float);
    (443136582, 0x1.fad3e58251c19p-5%float);
    (443136588, 0x1.5a6749531e00dp-2%float);
    (443136589, (-0x1.37da013e7cdf0p-1)%float);
    (443136590, (-0x1.fe30a314dc7e0p-1)%float);
    (443136591, (-0x1.deec94d0bf0d4p-2)%float);
    (443136592, 0x1.f6da32b60c1ccp-2%float);
    (443136598, 0x1.d32783c3d2d91p-3%float);
    (443136599, 0x1.e29386283b890p-1%float);
    (443136600, 0x1.94af8030d23b4p-1%float);
    (443136601, (-0x1.6a2b67fb95a48p-4)%float);
    (443136602, (-0x1.c59b16725b565p-1)%float);
    (443136608, (-0x1.71308f8e6df92p-1)%float);
    (443136609, (-0x1.f1fafd65cd71dp-1)%float);
    (443136610, (-0x1.51dc4abc144a2p-2)%float);
    (443136611, 0x1.3b6f014bdbc24p-1%float);
    (443136612, 0x1.fdca0defcea38p-1%float);
    (443136618, 0x1.f6c3b815cf46ap-1%float);
    (443136619, 0x1.611b2b9d82a4ap-1%float);
    (443136620, (-0x1.e4c91fd8a993ep-3)%float);
    (443136621, (-0x1.e412501490794p-1)%float);
    (443136622, (-0x1.91e4bddb0c6bcp-1)%float);
    (443136628, (-0x1.da85679017a05p-1)%float);
    (443136629, (-0x1.7a5426b93aa30p-3)%float);
    (443136630, 0x1.7450af28abd7bp-1%float);
    (443136631, 0x1.f0e85d2ad74bap-1%float);
    (443136632, 0x1.494a8560efbd8p-2%float)
  ].

(** A square wave of period [2^-44] along x with the two values 1 and -1:
    a noise field that tells neighbouring binary64 numbers of magnitude
    around one hundred apart. *)
Definition squareWave (x z : float) : float :=
  let y := (x * 0x1p+44)%float in
  if (y - JS.Math_floor y <? JS.of_Q 0.5)%float then 1%float else (-1)%float.

(** The generator of given settings whose twelve noise fields are that
    square wave. *)
Definition squareGround (s : WorldGenerationSettings float) : WorldGenerator float :=
  initializeNoiseGenerators (fun seed : string => seed) (fun _ => squareWave) s.

(** The scenario with chunks of size 25.6. *)
Definition seamSettings : WorldGenerationSettings float :=
  {| seed := seed scenarioSettings;
     chunkSize := JS.of_Q 25.6;
     meshResolution := meshResolution scenarioSettings;
     waterLevel := waterLevel scenarioSettings;
     continentScale := continentScale scenarioSettings;
     continentAmplitude := continentAmplitude scenarioSettings;
     mountainScale := mountainScale scenarioSettings;
     mountainAmplitude := mountainAmplitude scenarioSettings;
     mountainSharpness := mountainSharpness scenarioSettings;
     detailScale := detailScale scenarioSettings;
     detailAmplitude := detailAmplitude scenarioSettings;
     warpScale := warpScale scenarioSettings;
     warpStrength := warpStrength scenarioSettings;
     renderDistance := renderDistance scenarioSettings |}.

(** ** Inputs of the envelope examples *)

(** The scenario settings as real numbers. *)
Definition scenarioExact : WorldGenerationSettings R :=
  {| seed := "test";
     chunkSize := 128%R;
     meshResolution := 4;
     waterLevel := 10%R;
     continentScale := Q2R 0.002;
     continentAmplitude := 40%R;
     mountainScale := Q2R 0.02;
     mountainAmplitude := 32%R;
     mountainSharpness := Q2R 1.2;
     detailScale := Q2R 0.07;
     detailAmplitude := 8%R;
     warpScale := Q2R 0.06;
     warpStrength := 30%R;
     renderDistance := 3 |}.

(** [Math.pow] on the reals, for a base that is not negative. *)
Definition powOnReals (b e : R) : R :=
  if Req_dec_T b 0 then 0%R else Rpower b e.

(** A noise field on the reals with values in [-1, 1]. *)
Definition waveNoise (prng : string) (x z : R) : R := sin (x + z).

(** The scenario with the detail amplitude set to zero. *)
Definition zeroDetailSettings : WorldGenerationSettings float :=
  {| seed := seed scenarioSettings;
     chunkSize := chunkSize scenarioSettings;
     meshResolution := meshResolution scenarioSettings;
     waterLevel := waterLevel scenarioSettings;
     continentScale := continentScale scenarioSettings;
     continentAmplitude := continentAmplitude scenarioSettings;
     mountainScale := mountainScale scenarioSettings;
     mountainAmplitude := mountainAmplitude scenarioSettings;
     mountainSharpness := mountainSharpness scenarioSettings;
     detailScale := detailScale scenarioSettings;
     detailAmplitude := 0%float;
     warpScale := warpScale scenarioSettings;
     warpStrength := warpStrength scenarioSettings;
     renderDistance := renderDistance scenarioSettings |}.

(** Noise fields of a high plateau: the continent field is 1 everywhere,
    the eleven others are 0 everywhere. *)
Definition plateauNoise (prng : string) (x z : float) : float :=
  if decide (prng = "test_continent") then 1%float else 0%float.

(** The sum of the amplitudes that the settings configure. *)
Definition configuredAmplitudes (s : WorldGenerationSettings float) : float :=
  (continentAmplitude s + mountainAmplitude s + detailAmplitude s + warpStrength s)%float.

(* ================================================================== *)
(** * Properties of height sampling *)
(* ================================================================== *)

Section SamplingFacts.
Import JS.

Lemma element_Some {A : Type} (xs : list A) (k : Z) :
  0 <= k < Z.of_nat (length xs) -> exists a, element xs k = Some a /\ xs !! Z.to_nat k = Some a.
Proof.
  intros Hk. unfold element.
  destruct (xs !! Z.to_nat k) as [a|] eqn:E.
  - exists a. split; [|reflexivity].
    replace (0 <=? k) with true by (symmetry; apply Z.leb_le; lia).
    replace (k <? Z.of_nat (length xs)) with true by (symmetry; apply Z.ltb_lt; lia).
    reflexivity.
  - apply lookup_ge_None in E. lia.
Qed.

(** Clamping against a grid of at least one cell: NaN stays NaN, every
    other rounded coordinate lands on a grid index. *)
Lemma clampToGrid_cases (g : Z) (t : float) :
  0 <= g ->
  (Math_round t = INaN /\ clampToGrid (IInt g) t = INaN)
  \/ (Math_round t <> INaN /\ exists n, clampToGrid (IInt g) t = IInt n /\ 0 <= n <= g).
Proof.
  intros Hg. unfold clampToGrid.
  destruct (Math_round t) as [|s|n]; simpl.
  - left. split; reflexivity.
  - right. split; [discriminate|].
    destruct s; simpl.
    + exists 0. split; [reflexivity|lia].
    + destruct (0 <? g) eqn:E; [exists g|exists 0]; (split; [reflexivity|]).
      * lia.
      * apply Z.ltb_ge in E. lia.
  - right. split; [discriminate|].
    destruct (n <? g) eqn:E1; simpl.
    + apply Z.ltb_lt in E1.
      destruct (0 <? n) eqn:E2; [exists n|exists 0]; (split; [reflexivity|]).
      * apply Z.ltb_lt in E2. lia.
      * lia.
    + destruct (0 <? g) eqn:E2; [exists g|exists 0]; (split; [reflexivity|]).
      * lia.
      * lia.
Qed.

Lemma clampToGrid_inf (s : bool) (t : float) :
  match clampToGrid (IInf s) t with
  | INaN => True
  | IInf s' => s' = false
  | IInt n => 0 <= n
  end.
Proof.
  unfold clampToGrid. destruct (Math_round t) as [|s'|n]; simpl; [exact I| |].
  - destruct s, s'; simpl; auto; lia.
  - destruct s; simpl.
    + lia.
    + destruct (0 <? n) eqn:E; [apply Z.ltb_lt in E|]; lia.
Qed.

Lemma vertexSlot_nan (normX normZ : integral) (len : Z) :
  iltb (vertexSlot normX normZ INaN) (IInt len) = false.
Proof. destruct normX, normZ; reflexivity. Qed.

Lemma vertexSlot_nanX (normZ res : integral) (len : Z) :
  iltb (vertexSlot INaN normZ res) (IInt len) = false.
Proof.
  unfold vertexSlot. destruct normZ as [|s|z], res as [|s'|r]; simpl; try reflexivity.
  all: destruct (_ =? 0); reflexivity.
Qed.

Lemma vertexSlot_nanZ (normX res : integral) (len : Z) :
  iltb (vertexSlot normX INaN res) (IInt len) = false.
Proof. unfold vertexSlot. destruct normX, res; reflexivity. Qed.

Lemma vertexSlot_inf (normX normZ : integral) (len : Z) :
  match normX with INaN => True | IInf s => s = false | IInt n => 0 <= n end ->
  match normZ with INaN => True | IInf s => s = false | IInt n => 0 <= n end ->
  iltb (vertexSlot normX normZ (IInf false)) (IInt len) = false.
Proof.
  unfold vertexSlot.
  destruct normX as [|sx|nx], normZ as [|sz|nz]; simpl; intros HX HZ; subst; try reflexivity.
  all: destruct (nz =? 0); [reflexivity|]; simpl.
  all: destruct (nz <? 0) eqn:E; [apply Z.ltb_lt in E; lia|reflexivity].
Qed.

Lemma sampleTerrainHeightAt_unfold
    (chunk : WorldChunk) (terrainData : TerrainData) (worldX worldZ : float) :
  let vs := vertices terrainData in
  let len := Z.of_nat (length vs) in
  let res := gridResolution len in
  let gridSize := isub res (IInt 1) in
  let step := sampleStep chunk (to_float gridSize) in
  let normX := clampToGrid gridSize
    (gridCoordinate (worldX - Vector3.x (position chunk)) step (to_float gridSize)) in
  let normZ := clampToGrid gridSize
    (gridCoordinate (worldZ - Vector3.z (position chunk)) step (to_float gridSize)) in
  sampleTerrainHeightAt chunk terrainData worldX worldZ =
  if iltb res (IInt 2) then VNull
  else if iltb (vertexSlot normX normZ res) (IInt len)
       then typedArrayGet vs (vertexSlot normX normZ res)
       else VNull.
Proof. reflexivity. Qed.

(** [sampleTerrainHeightAt] returns a number or [null], never the
    [undefined] of an out-of-range read, and the number is the Y component
    stored for the vertex at the two clamped grid indices. *)
Theorem sampleTerrainHeightAt_number_or_null
    (chunk : WorldChunk) (terrainData : TerrainData) (worldX worldZ : float) :
  let vs := vertices terrainData in
  let len := Z.of_nat (length vs) in
  let res := gridResolution len in
  let out := sampleTerrainHeightAt chunk terrainData worldX worldZ in
  (out = VNull \/ exists h, out = VNumber h)
  /\ (iltb res (IInt 2) = true -> out = VNull)
  /\ (iltb res (IInt 2) = false ->
      let gridSize := isub res (IInt 1) in
      let step := sampleStep chunk (to_float gridSize) in
      let normX := clampToGrid gridSize
        (gridCoordinate (worldX - Vector3.x (position chunk)) step (to_float gridSize)) in
      let normZ := clampToGrid gridSize
        (gridCoordinate (worldZ - Vector3.z (position chunk)) step (to_float gridSize)) in
      let at_y := iadd (imul (iadd (imul normZ res) normX) (IInt 3)) (IInt 1) in
      if iltb at_y (IInt len)
      then exists r nx nz h,
             res = IInt r /\ normX = IInt nx /\ normZ = IInt nz
             /\ 0 <= nx <= r - 1 /\ 0 <= nz <= r - 1
             /\ vs !! Z.to_nat (3 * (nz * r + nx) + 1) = Some h
             /\ out = VNumber h
      else out = VNull).
Proof.
  pose proof (sampleTerrainHeightAt_unfold chunk terrainData worldX worldZ) as Hu.
  cbv zeta in *. unfold vertexSlot in Hu.
  remember (vertices terrainData) as vs eqn:Hvs.
  remember (Z.of_nat (length vs)) as len eqn:Hlen.
  remember (gridResolution len) as res eqn:Hres.
  remember (sampleTerrainHeightAt chunk terrainData worldX worldZ) as out eqn:Hout.
  remember (sampleStep chunk (to_float (isub res (IInt 1)))) as step eqn:Hstep.
  remember (gridCoordinate (worldX - Vector3.x (position chunk)) step (to_float (isub res (IInt 1)))) as tx eqn:Htx.
  remember (gridCoordinate (worldZ - Vector3.z (position chunk)) step (to_float (isub res (IInt 1)))) as tz eqn:Htz.
  clear Hout Hstep Htx Htz Hres.
  assert (Hmain : iltb res (IInt 2) = false ->
    if iltb (iadd (imul (iadd (imul (clampToGrid (isub res (IInt 1)) tz) res)
                              (clampToGrid (isub res (IInt 1)) tx)) (IInt 3)) (IInt 1)) (IInt len)
    then exists r nx nz h,
           res = IInt r /\ clampToGrid (isub res (IInt 1)) tx = IInt nx
           /\ clampToGrid (isub res (IInt 1)) tz = IInt nz
           /\ 0 <= nx <= r - 1 /\ 0 <= nz <= r - 1
           /\ vs !! Z.to_nat (3 * (nz * r + nx) + 1) = Some h
           /\ out = VNumber h
    else out = VNull).
  { intros Hlow. rewrite Hlow in Hu.
    destruct res as [|s|r].
    - pose proof (vertexSlot_nan (clampToGrid (isub INaN (IInt 1)) tx)
                    (clampToGrid (isub INaN (IInt 1)) tz) len) as E.
      unfold vertexSlot in E. rewrite E in *. exact Hu.
    - destruct s; [discriminate Hlow|].
      pose proof (vertexSlot_inf (clampToGrid (IInf false) tx) (clampToGrid (IInf false) tz) len
                    (clampToGrid_inf false tx) (clampToGrid_inf false tz)) as E.
      unfold vertexSlot in E. change (isub (IInf false) (IInt 1)) with (IInf false) in *.
      rewrite E in *. exact Hu.
    - simpl in Hlow. apply Z.ltb_ge in Hlow.
      change (isub (IInt r) (IInt 1)) with (IInt (r + -1)) in *.
      destruct (clampToGrid_cases (r + -1) tx) as [[_ HX]|[_ (nx & HX & Hnx)]]; [lia| |].
      { rewrite HX in *.
        pose proof (vertexSlot_nanX (clampToGrid (IInt (r + -1)) tz) (IInt r) len) as E.
        unfold vertexSlot in E. rewrite E in *. exact Hu. }
      destruct (clampToGrid_cases (r + -1) tz) as [[_ HZ]|[_ (nz & HZ & Hnz)]]; [lia| |].
      { rewrite HX, HZ in *.
        pose proof (vertexSlot_nanZ (IInt nx) (IInt r) len) as E.
        unfold vertexSlot in E. rewrite E in *. exact Hu. }
      rewrite HX, HZ in *. simpl in Hu |- *.
      destruct ((nz * r + nx) * 3 + 1 <? len) eqn:Hlt; [|exact Hu].
      apply Z.ltb_lt in Hlt.
      destruct (element_Some vs ((nz * r + nx) * 3 + 1)) as (h & Hel & Hlk); [nia|].
      rewrite Hel in Hu.
      exists r, nx, nz, h. repeat split; try lia; try assumption.
      replace (3 * (nz * r + nx) + 1) with ((nz * r + nx) * 3 + 1) by lia. exact Hlk. }
  split; [|split].
  - destruct (iltb res (IInt 2)) eqn:Hlow.
    + left. exact Hu.
    + specialize (Hmain eq_refl).
      destruct (iltb _ (IInt len)).
      * destruct Hmain as (r & nx & nz & h & _ & _ & _ & _ & _ & _ & Ho). right. eauto.
      * left. exact Hmain.
  - intros Hlow. rewrite Hlow in Hu. exact Hu.
  - exact Hmain.
Qed.

End SamplingFacts.

Section SquareGrid.
Import JS.

Lemma holds_on_block_spec (P : Z -> bool) (depth : nat) (lo r : Z) :
  holds_on_block P depth lo = true -> lo <= r < lo + 2 ^ Z.of_nat depth -> P r = true.
Proof.
  revert lo. induction depth as [|d IH]; intros lo H Hr; simpl in H.
  - simpl in Hr. replace r with lo by lia. exact H.
  - apply andb_true_iff in H as [H1 H2].
    rewrite Nat2Z.inj_succ, Z.pow_succ_r in Hr by lia.
    destruct (Z_lt_dec r (lo + 2 ^ Z.of_nat d)).
    + apply (IH lo); [exact H1|lia].
    + apply (IH (lo + 2 ^ Z.of_nat d)); [exact H2|lia].
Qed.

Lemma square_resolution_ok_all : holds_on_block square_resolution_ok 16 2 = true.
Proof. vm_compute. reflexivity. Qed.

(** On a square grid of side [r] the resolution is recovered exactly, for
    every array length below 2^32. *)
Lemma gridResolution_square (r : Z) :
  2 <= r -> 3 * r * r < 2 ^ 32 -> gridResolution (3 * r * r) = IInt r.
Proof.
  intros H2 Hlen.
  assert (Hok : square_resolution_ok r = true).
  { apply (holds_on_block_spec _ 16 2 r square_resolution_ok_all).
    change (2 ^ Z.of_nat 16) with 65536. nia. }
  unfold square_resolution_ok in Hok.
  destruct (gridResolution (3 * r * r)) as [| |k]; try discriminate.
  apply Z.eqb_eq in Hok. congruence.
Qed.

Lemma Math_round_nan (t : float) : Math_round t = INaN <-> isNaN t = true.
Proof. unfold Math_round, isNaN. destruct (Prim2SF t) as [| | |s m e]; try destruct (e <? 0); split; congruence. Qed.

(** C10 (amended). For terrain data whose vertex array has length
    [3 * r * r] with [r >= 2] (and below the 2^32 elements a typed array can
    hold) the resolution check never fires, and [sampleTerrainHeightAt]
    returns a number exactly when neither grid coordinate is NaN: the grid
    indices are then in [0, r - 1] and the slot is inside the array.  When a
    grid coordinate is NaN (a NaN world position or chunk origin, or [0 / 0]
    from a zero step) the final branch is taken and the result is [null]. *)
Theorem sampleTerrainHeightAt_square_grid
    (chunk : WorldChunk) (terrainData : TerrainData) (worldX worldZ : float) (r : Z) :
  2 <= r -> 3 * r * r < 2 ^ 32 ->
  Z.of_nat (length (vertices terrainData)) = 3 * r * r ->
  let gridSize := to_float (IInt (r - 1)) in
  let step := sampleStep chunk gridSize in
  let tx := gridCoordinate (worldX - Vector3.x (position chunk)) step gridSize in
  let tz := gridCoordinate (worldZ - Vector3.z (position chunk)) step gridSize in
  let out := sampleTerrainHeightAt chunk terrainData worldX worldZ in
  gridResolution (3 * r * r) = IInt r
  /\ (isNaN tx = true \/ isNaN tz = true -> out = VNull)
  /\ (isNaN tx = false -> isNaN tz = false ->
      exists nx nz h,
        clampToGrid (IInt (r - 1)) tx = IInt nx /\ clampToGrid (IInt (r - 1)) tz = IInt nz
        /\ 0 <= nx <= r - 1 /\ 0 <= nz <= r - 1
        /\ vertices terrainData !! Z.to_nat (3 * (nz * r + nx) + 1) = Some h
        /\ out = VNumber h).
Proof.
  intros H2 Hlen Hvs gridSize step tx tz out.
  pose proof (gridResolution_square r H2 Hlen) as Hres.
  pose proof (sampleTerrainHeightAt_unfold chunk terrainData worldX worldZ) as Hu.
  cbv zeta in Hu. rewrite Hvs, Hres in Hu.
  change (isub (IInt r) (IInt 1)) with (IInt (r - 1)) in Hu.
  fold gridSize in Hu. fold step in Hu. fold tx in Hu. fold tz in Hu. fold out in Hu.
  replace (iltb (IInt r) (IInt 2)) with false in Hu
    by (symmetry; apply Z.ltb_ge; lia).
  split; [exact Hres|]. split.
  - intros [Hn|Hn]; apply Math_round_nan in Hn.
    + destruct (clampToGrid_cases (r - 1) tx) as [[_ HX]|[Hc _]]; [lia| |contradiction].
      rewrite HX, vertexSlot_nanX in Hu. exact Hu.
    + destruct (clampToGrid_cases (r - 1) tz) as [[_ HZ]|[Hc _]]; [lia| |contradiction].
      rewrite HZ, vertexSlot_nanZ in Hu. exact Hu.
  - intros Hx Hz.
    destruct (clampToGrid_cases (r - 1) tx) as [[Hc _]|[_ (nx & HX & Hnx)]]; [lia| |].
    { apply Math_round_nan in Hc. congruence. }
    destruct (clampToGrid_cases (r - 1) tz) as [[Hc _]|[_ (nz & HZ & Hnz)]]; [lia| |].
    { apply Math_round_nan in Hc. congruence. }
    rewrite HX, HZ in Hu. unfold vertexSlot in Hu. simpl in Hu.
    replace ((nz * r + nx) * 3 + 1 <? 3 * r * r) with true in Hu
      by (symmetry; apply Z.ltb_lt; nia).
    destruct (element_Some (vertices terrainData) ((nz * r + nx) * 3 + 1)) as (h & Hel & Hlk); [nia|].
    rewrite Hel in Hu.
    exists nx, nz, h. repeat split; try lia; try assumption.
    replace (3 * (nz * r + nx) + 1) with ((nz * r + nx) * 3 + 1) by lia. exact Hlk.
Qed.

Lemma sampleTerrainHeightAt_square_grid_witness :
  2 <= 2 /\ 3 * 2 * 2 < 2 ^ 32
  /\ Z.of_nat (length (vertices quad)) = 3 * 2 * 2
  /\ sampleTerrainHeightAt flatChunk quad 0.75 0.25 = VNumber 2.
Proof.
  split; [lia|]. split; [lia|]. split; [reflexivity|].
  destruct (sampleTerrainHeightAt_square_grid flatChunk quad 0.75 0.25 2)
    as (_ & _ & H); [lia | reflexivity | reflexivity |].
  destruct H as (nx & nz & h & HX & HZ & _ & _ & Hh & Hout); [reflexivity | reflexivity |].
  vm_compute in HX, HZ. injection HX as <-. injection HZ as <-.
  vm_compute in Hh. injection Hh as <-. exact Hout.
Defined.

(** C10 as stated fails: on the 2 x 2 grid a NaN world coordinate reaches
    the final [return null]. *)
Lemma sampleTerrainHeightAt_nan_is_null :
  ~ (forall (chunk : WorldChunk) (terrainData : TerrainData) (worldX worldZ : float) (r : Z),
       2 <= r -> Z.of_nat (length (vertices terrainData)) = 3 * r * r ->
       exists h, sampleTerrainHeightAt chunk terrainData worldX worldZ = VNumber h).
Proof.
  intros H. destruct (H flatChunk quad nan 0%float 2) as [h Hh]; [lia | reflexivity |].
  vm_compute in Hh. discriminate Hh.
Qed.

End SquareGrid.

(* ================================================================== *)
(** * Properties of the chunk bookkeeping *)
(* ================================================================== *)

Section KeyFacts.

Lemma comma_free_pretty_N_go (x : N) (s : string) :
  comma_free s = true -> comma_free (pretty_N_go x s) = true.
Proof.
  revert s. induction (N.lt_wf_0 x) as [x _ IH]. intros s Hs.
  destruct (decide (x = 0%N)) as [->|Hx].
  - rewrite pretty_N_go_0. exact Hs.
  - rewrite pretty_N_go_step by lia.
    apply IH.
    + apply N.div_lt; lia.
    + simpl. rewrite Hs, andb_true_r.
      unfold pretty_N_char. repeat case_match; reflexivity.
Qed.

Lemma comma_free_pretty_Z (x : Z) : comma_free (pretty x) = true.
Proof.
  destruct x as [|p|p]; [reflexivity| |].
  - unfold pretty, pretty_Z, pretty, pretty_positive, pretty, pretty_N.
    case_decide; [reflexivity|]. apply comma_free_pretty_N_go. reflexivity.
  - unfold pretty, pretty_Z. simpl.
    unfold pretty, pretty_positive, pretty, pretty_N.
    case_decide; [reflexivity|]. apply comma_free_pretty_N_go. reflexivity.
Qed.

Lemma comma_splits (a b s s' : string) :
  comma_free a = true -> comma_free b = true ->
  a +:+ "," +:+ s = b +:+ "," +:+ s' -> a = b /\ s = s'.
Proof.
  revert b. induction a as [|c a IH]; intros [|d b]; simpl; intros Ha Hb E.
  - injection E as E. auto.
  - injection E as E1 E2. subst d. simpl in Hb. discriminate Hb.
  - injection E as E1 E2. subst c. simpl in Ha. discriminate Ha.
  - injection E as E1 E2. subst d.
    apply andb_true_iff in Ha as [_ Ha]. apply andb_true_iff in Hb as [_ Hb].
    destruct (IH b Ha Hb E2) as [-> ->]. auto.
Qed.

Lemma chunkKey_inj (c d : ChunkCoordinate) :
  ChunkManager.chunkKey c = ChunkManager.chunkKey d -> c = d.
Proof.
  destruct c as [cx cz], d as [dx dz]. unfold ChunkManager.chunkKey. simpl.
  intros E. apply comma_splits in E as [E1 E2]; try apply comma_free_pretty_Z.
  apply (inj pretty) in E1. apply (inj pretty) in E2. congruence.
Qed.

Lemma key_of_chunkKey (c : ChunkCoordinate) : WorldManager.key_of c = ChunkManager.chunkKey c.
Proof. reflexivity. Qed.

End KeyFacts.

Section ChunkManagerFacts.
Import ChunkManager.

Lemma length_bind_const {A B : Type} (f : A -> list B) (k : nat) (l : list A) :
  (forall x, length (f x) = k) -> length (l ≫= f) = (length l * k)%nat.
Proof.
  intros Hf. induction l as [|x l IH]; csimpl; [reflexivity|].
  rewrite length_app, Hf, IH. lia.
Qed.

Lemma elem_of_getRequiredChunks (this : t) (p c : ChunkCoordinate) :
  let radius := renderDistance (settings this) `div` 2 in
  c ∈ getRequiredChunks this p <->
  ChunkCoordinate.x p - radius <= ChunkCoordinate.x c <= ChunkCoordinate.x p + radius
  /\ ChunkCoordinate.z p - radius <= ChunkCoordinate.z c <= ChunkCoordinate.z p + radius.
Proof.
  intros radius. unfold getRequiredChunks. fold radius.
  rewrite list_elem_of_bind. split.
  - intros (x & Hc & Hx). apply list_elem_of_bind in Hc as (z & Hc & Hz).
    apply list_elem_of_singleton in Hc. subst c. simpl.
    apply elem_of_seqZ in Hx, Hz. lia.
  - intros [Hx Hz]. exists (ChunkCoordinate.x c). split.
    + apply list_elem_of_bind. exists (ChunkCoordinate.z c). split.
      * destruct c. simpl. apply list_elem_of_singleton. reflexivity.
      * apply elem_of_seqZ. lia.
    + apply elem_of_seqZ. lia.
Qed.

Lemma NoDup_getRequiredChunks (this : t) (p : ChunkCoordinate) :
  NoDup (getRequiredChunks this p).
Proof.
  unfold getRequiredChunks. apply NoDup_bind; [| |apply NoDup_seqZ].
  - intros x1 x2 c _ _ H1 H2.
    apply list_elem_of_bind in H1 as (z1 & H1 & _), H2 as (z2 & H2 & _).
    apply list_elem_of_singleton in H1, H2. congruence.
  - intros x _. apply NoDup_bind; [| |apply NoDup_seqZ].
    + intros z1 z2 c _ _ H1 H2. apply list_elem_of_singleton in H1, H2. congruence.
    + intros z _. apply NoDup_singleton.
Qed.

Lemma length_getRequiredChunks (this : t) (p : ChunkCoordinate) :
  let radius := renderDistance (settings this) `div` 2 in
  0 <= renderDistance (settings this) ->
  Z.of_nat (length (getRequiredChunks this p)) = (2 * radius + 1) * (2 * radius + 1).
Proof.
  intros radius HR. unfold getRequiredChunks. fold radius.
  assert (0 <= radius) by (apply Z.div_pos; lia).
  rewrite (length_bind_const _ (Z.to_nat (2 * radius + 1))).
  - rewrite length_seqZ. lia.
  - intros x. rewrite (length_bind_const _ 1%nat); [|reflexivity].
    rewrite length_seqZ. lia.
Qed.

End ChunkManagerFacts.

Section RequiredSet.
Import ChunkManager.

Lemma elem_of_chunksToUnload (this : t) (p : ChunkCoordinate) (key : string) :
  key ∈ chunksToUnload (updatePlayerChunk p this).1 <->
  is_Some (loadedChunks (worldState this) !! key)
  /\ key ∉ chunkKey <$> getRequiredChunks this p.
Proof.
  unfold updatePlayerChunk. simpl.
  rewrite list_elem_of_filter, elem_of_list_to_set.
  split.
  - intros [Hk Hin]. apply list_elem_of_fmap in Hin as ([key' r] & -> & Hin).
    apply elem_of_map_to_list in Hin. simpl in *.
    split; [eauto|exact Hk].
  - intros ([r Hr] & Hk). split; [exact Hk|].
    apply list_elem_of_fmap. exists (key, r). split; [reflexivity|].
    apply elem_of_map_to_list. exact Hr.
Qed.

Lemma elem_of_chunksToLoad (this : t) (p c : ChunkCoordinate) :
  c ∈ chunksToLoad (updatePlayerChunk p this).1 <->
  c ∈ getRequiredChunks this p /\ loadedChunks (worldState this) !! chunkKey c = None.
Proof.
  unfold updatePlayerChunk. simpl. rewrite list_elem_of_filter. tauto.
Qed.

Lemma chunkKey_required (this : t) (p c : ChunkCoordinate) :
  chunkKey c ∈ chunkKey <$> getRequiredChunks this p <-> c ∈ getRequiredChunks this p.
Proof.
  rewrite list_elem_of_fmap. split.
  - intros (d & E & Hd). apply chunkKey_inj in E. subst d. exact Hd.
  - intros Hc. eauto.
Qed.

(** C3 (amended). [updatePlayerPosition] computes as required set the
    square of radius [floor(renderDistance / 2)] around the player's chunk:
    [(2 * floor(R / 2) + 1)^2] distinct coordinates, which is [R x R] for an
    odd [R] and [(R + 1) x (R + 1)] for an even one.  [chunksToLoad] is the
    list of required coordinates without an entry in the resident table, a
    key is in [chunksToUnload] exactly when it is resident and not required,
    and every resident key whose coordinate lies outside the square is among
    them. *)
Theorem updatePlayerPosition_required_square (this : t) (worldPosition : Vector3) :
  match updatePlayerPosition worldPosition this with
  | None => worldToChunk this worldPosition = None
  | Some (result, this') =>
      exists p,
        worldToChunk this worldPosition = Some p /\
        let R := renderDistance (settings this) in
        let radius := R `div` 2 in
        let required := getRequiredChunks this p in
        (* the required set: the square of radius floor(R / 2) around p *)
        (forall c, c ∈ required <->
           ChunkCoordinate.x p - radius <= ChunkCoordinate.x c <= ChunkCoordinate.x p + radius
           /\ ChunkCoordinate.z p - radius <= ChunkCoordinate.z c <= ChunkCoordinate.z p + radius)
        /\ NoDup required
        /\ (0 <= R -> Z.of_nat (length required) = (2 * radius + 1) * (2 * radius + 1))
        /\ (0 <= R -> R `mod` 2 = 1 -> Z.of_nat (length required) = R * R)
        /\ (0 <= R -> R `mod` 2 = 0 -> Z.of_nat (length required) = (R + 1) * (R + 1))
        /\ visibleChunks (worldState this') = list_to_set (chunkKey <$> required)
        (* the resident table is left as it is *)
        /\ loadedChunks (worldState this') = loadedChunks (worldState this)
        (* to load: the required coordinates without a resident entry *)
        /\ chunksToLoad result
           = filter (fun c => loadedChunks (worldState this) !! chunkKey c = None) required
        (* to unload: the resident keys that are not required *)
        /\ (forall key, key ∈ chunksToUnload result <->
              is_Some (loadedChunks (worldState this) !! key) /\ key ∉ chunkKey <$> required)
        /\ (forall c, is_Some (loadedChunks (worldState this) !! chunkKey c) ->
              c ∉ required -> chunkKey c ∈ chunksToUnload result)
  end.
Proof.
  unfold updatePlayerPosition.
  destruct (worldToChunk this worldPosition) as [p|]; simpl; [|reflexivity].
  exists p. split; [reflexivity|]. cbv zeta.
  pose proof (length_getRequiredChunks this p) as Hlen. cbv zeta in Hlen.
  split; [apply elem_of_getRequiredChunks|].
  split; [apply NoDup_getRequiredChunks|].
  split; [exact Hlen|].
  split; [|split; [|split; [reflexivity|split; [reflexivity|split; [reflexivity|split]]]]].
  - intros HR Hodd. rewrite Hlen by exact HR.
    pose proof (Z.div_mod (renderDistance (settings this)) 2 ltac:(lia)). nia.
  - intros HR Heven. rewrite Hlen by exact HR.
    pose proof (Z.div_mod (renderDistance (settings this)) 2 ltac:(lia)). nia.
  - intros key. apply (elem_of_chunksToUnload this p key).
  - intros c Hres Hreq. apply (elem_of_chunksToUnload this p). split; [exact Hres|].
    rewrite chunkKey_required. exact Hreq.
Qed.

(** C3 as stated fails for an even render distance: with [renderDistance = 4]
    the required set has 5 x 5 = 25 coordinates, not 4 x 4. *)
Lemma required_set_even_renderDistance :
  match updatePlayerPosition origin (new (withRenderDistance 4 scenarioSettings)) with
  | Some (result, this') =>
      length (chunksToLoad result) = 25%nat
      /\ size (visibleChunks (worldState this')) = 25%nat
      /\ 25 <> 4 * 4
  | None => False
  end.
Proof. vm_compute. split; [reflexivity|]. split; [reflexivity|]. discriminate. Qed.

End RequiredSet.

(* ================================================================== *)
(** * Which vertex the height query reads *)
(* ================================================================== *)

Section NearestVertex.
Import JS.

Lemma Math_round_nearest (t : float) (n : Z) :
  is_nearest_integer t n <-> Math_round t = IInt n.
Proof.
  unfold is_nearest_integer, Math_round.
  destruct (Prim2SF t) as [z|i| |s m e]; try (split; [intros []|discriminate]).
  - split; [intros ->; reflexivity|intros H; injection H as <-; reflexivity].
  - destruct (e <? 0) eqn:He.
    + apply Z.ltb_lt in He. cbv zeta.
      set (v := cond_Zopp s (Z.pos m)).
      rewrite Z.shiftr_div_pow2 by lia.
      replace (2 ^ (- e)) with (2 * 2 ^ (- e - 1))
        by (rewrite <- Z.pow_succ_r by lia; f_equal; lia).
      assert (Hh : 0 < 2 ^ (- e - 1)) by (apply Z.pow_pos_nonneg; lia).
      set (h := 2 ^ (- e - 1)) in *.
      split.
      * intros [H1 H2]. f_equal. symmetry.
        apply (Z.div_unique_pos _ _ n (v + h - 2 * h * n)); nia.
      * intros H. injection H as <-.
        pose proof (Z.div_mod (v + h) (2 * h) ltac:(lia)) as Hd.
        pose proof (Z.mod_pos_bound (v + h) (2 * h) ltac:(lia)) as Hm.
        nia.
    + unfold floor_value. apply Z.ltb_ge in He.
      rewrite Z.shiftl_mul_pow2 by lia.
      split; [intros ->; reflexivity|intros H; injection H as <-; reflexivity].
Qed.

Lemma clamp_integer (g k : Z) :
  0 <= g -> imax (IInt 0) (imin (IInt g) (IInt k)) = IInt (Z.max 0 (Z.min g k)).
Proof.
  intros Hg. simpl.
  destruct (k <? g) eqn:E1; simpl.
  - apply Z.ltb_lt in E1. destruct (0 <? k) eqn:E2;
      [apply Z.ltb_lt in E2|apply Z.ltb_ge in E2]; f_equal; lia.
  - apply Z.ltb_ge in E1. destruct (0 <? g) eqn:E2;
      [apply Z.ltb_lt in E2|apply Z.ltb_ge in E2]; f_equal; lia.
Qed.

Lemma Math_round_integer (t : float) :
  match Prim2SF t with
  | S754_nan => Math_round t = INaN
  | S754_infinity s => Math_round t = IInf s
  | _ => exists k, Math_round t = IInt k
  end.
Proof.
  unfold Math_round. destruct (Prim2SF t) as [z|i| |s m e]; eauto.
  destruct (e <? 0); eauto.
Qed.

Lemma clampToGrid_clamped_index (r : Z) (t : float) (nx : Z) :
  1 <= r -> is_clamped_index r t nx <-> clampToGrid (IInt (r - 1)) t = IInt nx.
Proof.
  intros Hr. unfold is_clamped_index, clampToGrid.
  pose proof (Math_round_integer t) as Hi.
  pose proof (Math_round_nearest t) as Hn.
  assert (Hfin : forall k, Math_round t = IInt k ->
            (exists k', is_nearest_integer t k' /\ nx = Z.max 0 (Z.min (r - 1) k'))
            <-> imax (IInt 0) (imin (IInt (r - 1)) (Math_round t)) = IInt nx).
  { intros k Hk. rewrite Hk, clamp_integer by lia. split.
    - intros (k' & Hk' & ->). apply Hn in Hk'. congruence.
    - intros E. injection E as <-. exists k. split; [apply Hn; exact Hk|reflexivity]. }
  destruct (Prim2SF t) as [z|i| |s m e].
  - destruct Hi as [k Hk]. exact (Hfin k Hk).
  - rewrite Hi. destruct i; simpl.
    + split; [intros ->; reflexivity|intros H; injection H as <-; reflexivity].
    + destruct (0 <? r - 1) eqn:E; [apply Z.ltb_lt in E|apply Z.ltb_ge in E].
      * split; [intros ->; reflexivity|intros H; injection H as <-; reflexivity].
      * split; [intros ->; f_equal; lia|intros H; injection H as <-; lia].
  - rewrite Hi. split; [intros []|discriminate].
  - destruct Hi as [k Hk]. exact (Hfin k Hk).
Qed.

Lemma is_clamped_index_not_nan (r : Z) (t : float) (nx : Z) :
  is_clamped_index r t nx -> isNaN t = false.
Proof.
  unfold is_clamped_index, isNaN. destruct (Prim2SF t); try reflexivity. intros [].
Qed.



End NearestVertex.

(* ================================================================== *)
(** * Properties of the coordinator *)
(* ================================================================== *)

Section CoordinatorFacts.
Import WorldManager.

Lemma worldToChunk_settings (a b : ChunkManager.t) (pos : Vector3) :
  ChunkManager.settings a = ChunkManager.settings b ->
  ChunkManager.worldToChunk a pos = ChunkManager.worldToChunk b pos.
Proof. intros E. unfold ChunkManager.worldToChunk. rewrite E. reflexivity. Qed.

Lemma getRequiredChunks_settings (a b : ChunkManager.t) (p : ChunkCoordinate) :
  ChunkManager.settings a = ChunkManager.settings b ->
  ChunkManager.getRequiredChunks a p = ChunkManager.getRequiredChunks b p.
Proof. intros E. unfold ChunkManager.getRequiredChunks. rewrite E. reflexivity. Qed.

(** What the loop over [chunksToLoad] does: it only files requests and
    marks their keys as loading. *)
Lemma foldl_requestIfAbsent (l : list ChunkCoordinate) (w : t) :
  let w' := foldl requestIfAbsent w l in
  finalSettings w' = finalSettings w
  /\ chunkManagerRef w' = chunkManagerRef w
  /\ objects w' = objects w
  /\ loadedChunks w' = loadedChunks w
  /\ ready w' = ready w
  /\ loadedChunkCoords w' = loadedChunkCoords w
  /\ chunkTerrainData w' = chunkTerrainData w
  /\ exists new,
       requested w' = requested w ++ new
       /\ (forall c, c ∈ new ->
             (c ∈ l) /\ (key_of c ∉ loadingChunks w) /\ (key_of c ∉ dom (chunkTerrainData w)))
       /\ NoDup (key_of <$> new)
       /\ loadingChunks w' = loadingChunks w ∪ list_to_set (key_of <$> new).
Proof.
  revert w. induction l as [|c l IH]; intros w; simpl.
  - do 7 (split; [reflexivity|]). exists [].
    split; [rewrite app_nil_r; reflexivity|].
    split; [intros c Hc; inversion Hc|].
    split; [constructor|]. simpl. set_solver.
  - specialize (IH (requestIfAbsent w c)). cbv zeta in IH.
    destruct IH as (E1 & E2 & E3 & E4 & E5 & E6 & E7 & new & Hreq & Hnew & Hnd & Hload).
    unfold requestIfAbsent in *.
    destruct (decide _) as [[Hk1 Hk2]|Hno]; simpl in *.
    + repeat (split; [assumption|]).
      exists (c :: new). split; [rewrite Hreq, <- app_assoc; reflexivity|].
      split; [|split].
      * intros d Hd. apply elem_of_cons in Hd as [->|Hd].
        -- split; [left|]. split; assumption.
        -- destruct (Hnew d Hd) as (H1 & H2 & H3).
           split; [right; exact H1|]. split; [set_solver|exact H3].
      * simpl. constructor; [|exact Hnd].
        intros Hin. apply list_elem_of_fmap in Hin as (d & Hd & Hin).
        destruct (Hnew d Hin) as (_ & H2 & _). rewrite <- Hd in H2. set_solver.
      * rewrite Hload. simpl. set_solver.
    + repeat (split; [assumption|]).
      exists new. split; [exact Hreq|]. split; [|split; assumption].
      intros d Hd. destruct (Hnew d Hd) as (H1 & H2 & H3).
      split; [right; exact H1|]. split; assumption.
Qed.

(** What the loop over [chunksToUnload] does. *)
Lemma foldl_unload (l : list string) (w : t) :
  let w' := foldl unload w l in
  finalSettings w' = finalSettings w
  /\ ChunkManager.settings (chunkManagerRef w') = ChunkManager.settings (chunkManagerRef w)
  /\ objects w' = objects w
  /\ requested w' = requested w
  /\ pending w' = pending w
  /\ (forall k, ChunkManager.loadedChunks (ChunkManager.worldState (chunkManagerRef w')) !! k
                = if decide (k ∈ l) then None
                  else ChunkManager.loadedChunks (ChunkManager.worldState (chunkManagerRef w)) !! k)
  /\ (forall k, chunkTerrainData w' !! k
                = if decide (k ∈ l) then None else chunkTerrainData w !! k)
  /\ (forall k, k ∈ loadingChunks w' <-> (k ∈ loadingChunks w) /\ (k ∉ l))
  /\ (forall k, k ∈ loadedChunkCoords w' <-> (k ∈ loadedChunkCoords w) /\ (k ∉ l)).
Proof.
  revert w. induction l as [|key l IH]; intros w; simpl.
  - do 5 (split; [reflexivity|]).
    split; [intros k; destruct (decide (k ∈ @nil string)) as [H|H]; [inversion H|reflexivity]|].
    split; [intros k; destruct (decide (k ∈ @nil string)) as [H|H]; [inversion H|reflexivity]|].
    split; intros k; set_solver.
  - specialize (IH (unload w key)). cbv zeta in IH.
    destruct IH as (E1 & E2 & E3 & E4 & E5 & HL & HT & HG & HC).
    do 5 (split; [assumption|]).
    assert (Hdec : forall (A : Type) (k : string) (x : option A),
              (if decide (k ∈ l) then None
               else if decide (k = key) then None else x)
              = if decide (k ∈ key :: l) then None else x).
    { intros A k x.
      destruct (decide (k ∈ l)) as [Hin|Hnin].
      - rewrite decide_True by (right; exact Hin). reflexivity.
      - destruct (decide (k = key)) as [->|Hne].
        + rewrite decide_True by left. reflexivity.
        + rewrite decide_False; [reflexivity|].
          intros H. apply elem_of_cons in H as [H|H]; contradiction. }
    split; [|split; [|split]].
    + intros k. rewrite HL, <- Hdec. unfold unload, ChunkManager.unloadChunk. simpl.
      destruct (decide (k ∈ l)); [reflexivity|].
      destruct (decide (k = key)) as [->|Hne].
      * apply lookup_delete_eq.
      * apply lookup_delete_ne. congruence.
    + intros k. rewrite HT, <- Hdec. unfold unload. simpl.
      destruct (decide (k ∈ l)); [reflexivity|].
      destruct (decide (k = key)) as [->|Hne].
      * apply lookup_delete_eq.
      * apply lookup_delete_ne. congruence.
    + intros k. rewrite HG. unfold unload. simpl.
      rewrite elem_of_difference, elem_of_singleton, not_elem_of_cons. tauto.
    + intros k. rewrite HC. unfold unload. simpl.
      rewrite elem_of_difference, elem_of_singleton, not_elem_of_cons. tauto.
Qed.


#[local] Abbreviation resident w :=
  (ChunkManager.loadedChunks (ChunkManager.worldState (chunkManagerRef w))).

(** One frame, as seen from outside. *)
Lemma useFrame_spec (pos : Vector3) (w w1 : t) :
  useFrame pos w = Some w1 ->
  exists p,
    ChunkManager.worldToChunk (chunkManagerRef w) pos = Some p /\
    let required := ChunkManager.getRequiredChunks (chunkManagerRef w) p in
    ChunkManager.settings (chunkManagerRef w1) = ChunkManager.settings (chunkManagerRef w)
    /\ finalSettings w1 = finalSettings w
    /\ objects w1 = objects w
    /\ requested w1 = requested w ++ requestsSince w w1
    /\ NoDup (key_of <$> requestsSince w w1)
    /\ (forall c, c ∈ requestsSince w w1 ->
          (c ∈ required) /\ resident w !! key_of c = None
          /\ (key_of c ∉ loadingChunks w) /\ (key_of c ∉ dom (chunkTerrainData w)))
    /\ (forall k, resident w1 !! k
                  = if decide (k ∈ key_of <$> required) then resident w !! k else None)
    /\ (forall k, chunkTerrainData w1 !! k
                  = if decide (is_Some (resident w !! k) /\ (k ∉ key_of <$> required))
                    then None else chunkTerrainData w !! k)
    /\ (forall k, k ∈ loadingChunks w1 <->
                  ((k ∈ loadingChunks w) \/ (k ∈ key_of <$> requestsSince w w1))
                  /\ ~ (is_Some (resident w !! k) /\ (k ∉ key_of <$> required))).
Proof.
  unfold useFrame, ChunkManager.updatePlayerPosition.
  destruct (ChunkManager.worldToChunk (chunkManagerRef w) pos) as [p|] eqn:Hp; [|discriminate].
  intros Hw1. exists p. split; [reflexivity|]. cbv zeta.
  pose (upd := ChunkManager.updatePlayerChunk p (chunkManagerRef w)).
  pose (w0 := setChunkManager upd.2 w).
  pose (wA := foldl requestIfAbsent w0 (ChunkManager.chunksToLoad upd.1)).
  pose (wB := foldl unload wA (ChunkManager.chunksToUnload upd.1)).
  assert (Ew1 : w1 = refreshLoadedChunks wB) by (injection Hw1 as <-; reflexivity).
  clear Hw1. subst w1.
  pose proof (foldl_requestIfAbsent (ChunkManager.chunksToLoad upd.1) w0) as HA.
  cbv zeta in HA. fold wA in HA.
  destruct HA as (A1 & A2 & A3 & _ & _ & _ & A7 & new & Areq & Anew & And & Aload).
  pose proof (foldl_unload (ChunkManager.chunksToUnload upd.1) wA) as HB.
  cbv zeta in HB. fold wB in HB.
  destruct HB as (B1 & B2 & B3 & B4 & B5 & BL & BT & BG & _).
  assert (Hunl : forall k, k ∈ ChunkManager.chunksToUnload upd.1 <->
            is_Some (resident w !! k)
            /\ (k ∉ key_of <$> ChunkManager.getRequiredChunks (chunkManagerRef w) p)).
  { intros k. apply (elem_of_chunksToUnload (chunkManagerRef w) p k). }
  assert (Hld : forall c, c ∈ ChunkManager.chunksToLoad upd.1 <->
            c ∈ ChunkManager.getRequiredChunks (chunkManagerRef w) p
            /\ resident w !! key_of c = None).
  { intros c. apply (elem_of_chunksToLoad (chunkManagerRef w) p c). }
  assert (U1 : ChunkManager.loadedChunks (ChunkManager.worldState (chunkManagerRef w0)) = resident w)
    by reflexivity.
  assert (U2 : ChunkManager.settings (chunkManagerRef w0) = ChunkManager.settings (chunkManagerRef w))
    by reflexivity.
  assert (U3 : finalSettings w0 = finalSettings w) by reflexivity.
  assert (U4 : objects w0 = objects w) by reflexivity.
  assert (U5 : requested w0 = requested w) by reflexivity.
  assert (U6 : chunkTerrainData w0 = chunkTerrainData w) by reflexivity.
  assert (U7 : loadingChunks w0 = loadingChunks w) by reflexivity.
  assert (R1 : chunkManagerRef (refreshLoadedChunks wB) = chunkManagerRef wB) by reflexivity.
  assert (R2 : finalSettings (refreshLoadedChunks wB) = finalSettings wB) by reflexivity.
  assert (R3 : objects (refreshLoadedChunks wB) = objects wB) by reflexivity.
  assert (R4 : requested (refreshLoadedChunks wB) = requested wB) by reflexivity.
  assert (R5 : chunkTerrainData (refreshLoadedChunks wB) = chunkTerrainData wB) by reflexivity.
  assert (R6 : loadingChunks (refreshLoadedChunks wB) = loadingChunks wB) by reflexivity.
  clearbody wA wB w0 upd.
  assert (Hsince : requestsSince w (refreshLoadedChunks wB) = new).
  { unfold requestsSince. rewrite R4, B4, Areq, U5. apply drop_app_length. }
  rewrite Hsince, R1, R2, R3, R4, R5, R6.
  split; [rewrite B2, A2; exact U2|].
  split; [rewrite B1, A1; exact U3|].
  split; [rewrite B3, A3; exact U4|].
  split; [rewrite B4, Areq, U5; reflexivity|].
  split; [exact And|].
  split.
  { intros c Hc. destruct (Anew c Hc) as (H1 & H2 & H3).
    apply Hld in H1 as [H1 H1']. rewrite U7 in H2. rewrite U6 in H3.
    repeat split; assumption. }
  split.
  { intros k. rewrite BL, A2, U1.
    destruct (decide (k ∈ ChunkManager.chunksToUnload upd.1)) as [Hin|Hnin].
    - apply Hunl in Hin as [_ Hin]. rewrite decide_False by exact Hin. reflexivity.
    - destruct (decide (k ∈ key_of <$> ChunkManager.getRequiredChunks (chunkManagerRef w) p)) as [Hr|Hr];
        [reflexivity|].
      destruct (resident w !! k) eqn:E; [|reflexivity].
      destruct Hnin. apply Hunl. split; [rewrite E; eauto|exact Hr]. }
  split.
  { intros k. rewrite BT, A7, U6.
    destruct (decide (k ∈ ChunkManager.chunksToUnload upd.1)) as [Hin|Hnin].
    - apply Hunl in Hin. rewrite decide_True by exact Hin. reflexivity.
    - rewrite decide_False; [reflexivity|]. intros H. apply Hnin, Hunl, H. }
  { intros k. rewrite BG, Aload, U7, elem_of_union, elem_of_list_to_set, Hunl. tauto. }
Qed.


Lemma useFrame_same_position (pos : Vector3) (w w1 : t) :
  useFrame pos w = Some w1 ->
  ChunkManager.worldToChunk (chunkManagerRef w1) pos
  = ChunkManager.worldToChunk (chunkManagerRef w) pos
  /\ forall p, ChunkManager.getRequiredChunks (chunkManagerRef w1) p
               = ChunkManager.getRequiredChunks (chunkManagerRef w) p.
Proof.
  intros H. apply useFrame_spec in H as (p & _ & Hs & _).
  split; [apply worldToChunk_settings, Hs|].
  intros q. apply getRequiredChunks_settings, Hs.
Qed.

(** C5. Two frames in a row at the same observer position: a call of
    [requestChunk] is made only for a coordinate whose key is neither in the
    loading set nor in the terrain-data map at that moment; a coordinate
    already marked loading is requested by neither frame, a coordinate
    requested by the first frame is not requested again by the second, and
    no frame requests a coordinate twice. *)
Theorem useFrame_no_duplicate_request (pos : Vector3) (w w1 w2 : t) :
  useFrame pos w = Some w1 ->
  useFrame pos w1 = Some w2 ->
  (forall c, c ∈ requestsSince w w1 ->
     (key_of c ∉ loadingChunks w) /\ (key_of c ∉ dom (chunkTerrainData w)))
  /\ (forall c, c ∈ requestsSince w1 w2 ->
     (key_of c ∉ loadingChunks w1) /\ (key_of c ∉ dom (chunkTerrainData w1)))
  /\ (forall c, key_of c ∈ loadingChunks w ->
     (c ∉ requestsSince w w1) /\ (c ∉ requestsSince w1 w2))
  /\ (forall c, c ∈ requestsSince w w1 -> c ∉ requestsSince w1 w2)
  /\ NoDup (requestsSince w w1)
  /\ NoDup (requestsSince w1 w2).
Proof.
  intros H1 H2.
  destruct (useFrame_same_position pos w w1 H1) as [Hpos Hreq].
  apply useFrame_spec in H1 as (p & Hp & _ & _ & _ & _ & Hnd1 & Hnew1 & _ & _ & Hload1).
  apply useFrame_spec in H2 as (p2 & Hp2 & _ & _ & _ & _ & Hnd2 & Hnew2 & _ & _ & _).
  rewrite Hpos, Hp in Hp2. injection Hp2 as <-. rewrite Hreq in Hnew2.
  assert (Hstay : forall c, c ∈ ChunkManager.getRequiredChunks (chunkManagerRef w) p ->
            (key_of c ∈ loadingChunks w) \/ (c ∈ requestsSince w w1) ->
            key_of c ∈ loadingChunks w1).
  { intros c Hc Hor. apply Hload1. split.
    - destruct Hor as [Hl|Hn]; [left; exact Hl|right].
      apply list_elem_of_fmap. eauto.
    - intros [_ Hno]. apply Hno. apply list_elem_of_fmap. eauto. }
  split; [|split; [|split; [|split; [|split]]]].
  - intros c Hc. destruct (Hnew1 c Hc) as (_ & _ & Ha & Hb). split; assumption.
  - intros c Hc. destruct (Hnew2 c Hc) as (_ & _ & Ha & Hb). split; assumption.
  - intros c Hc. split.
    + intros Hin. destruct (Hnew1 c Hin) as (_ & _ & Ha & _). contradiction.
    + intros Hin. destruct (Hnew2 c Hin) as (Hr & _ & Ha & _).
      apply Ha, Hstay; [exact Hr|left; exact Hc].
  - intros c Hc Hin. destruct (Hnew2 c Hin) as (Hr & _ & Ha & _).
    apply Ha, Hstay; [exact Hr|right; exact Hc].
  - apply (NoDup_fmap_1 key_of). exact Hnd1.
  - apply (NoDup_fmap_1 key_of). exact Hnd2.
Qed.

Lemma useFrame_no_duplicate_request_witness :
  useFrame origin (stateAfter [Frame origin]) = Some (stateAfter [Frame origin; Frame origin])
  /\ useFrame origin (stateAfter [Frame origin; Frame origin])
     = Some (stateAfter [Frame origin; Frame origin; Frame origin])
  /\ key_of originChunk ∈ loadingChunks (stateAfter [Frame origin])
  /\ (originChunk ∉ requestsSince (stateAfter [Frame origin]) (stateAfter [Frame origin; Frame origin]))
  /\ (originChunk ∉ requestsSince (stateAfter [Frame origin; Frame origin])
                      (stateAfter [Frame origin; Frame origin; Frame origin])).
Proof.
  assert (H1 : useFrame origin (stateAfter [Frame origin])
               = Some (stateAfter [Frame origin; Frame origin])) by (vm_compute; reflexivity).
  assert (H2 : useFrame origin (stateAfter [Frame origin; Frame origin])
               = Some (stateAfter [Frame origin; Frame origin; Frame origin]))
    by (vm_compute; reflexivity).
  assert (H3 : key_of originChunk ∈ loadingChunks (stateAfter [Frame origin])).
  { apply elem_of_elements. vm_compute. repeat constructor. }
  split; [exact H1|]. split; [exact H2|]. split; [exact H3|].
  exact (proj1 (proj2 (proj2 (useFrame_no_duplicate_request origin _ _ _ H1 H2))) originChunk H3).
Defined.


Lemma onWorkerMessage_pending (coordinate : ChunkCoordinate) (terrain : TerrainData) (w : t) :
  pending w !! key_of coordinate = Some coordinate ->
  let key := key_of coordinate in
  let w1 := onWorkerMessage coordinate terrain w in
  ChunkManager.settings (chunkManagerRef w1) = ChunkManager.settings (chunkManagerRef w)
  /\ objects w1 = objects w ++ [ {| coordinate := coordinate;
                                    position := ChunkManager.chunkToWorld (chunkManagerRef w) coordinate;
                                    isLoaded := false; isVisible := true; mesh := None;
                                    needsUpdate := true |} ]
  /\ resident w1 = <[key := length (objects w)]> (resident w)
  /\ chunkTerrainData w1 = <[key := terrain]> (chunkTerrainData w)
  /\ loadingChunks w1 = loadingChunks w ∖ {[key]}
  /\ pending w1 = delete key (pending w)
  /\ requested w1 = requested w.
Proof.
  intros Hp. unfold onWorkerMessage. rewrite Hp. cbv zeta.
  repeat split.
Qed.

(** C4 (amended). The continuation of a request checks nothing: when the
    terrain data of a coordinate arrives it is stored in the terrain-data
    map, a fresh unloaded [WorldChunk] is registered for the coordinate and
    the loading mark is removed, whether or not the coordinate is still
    required.  The entry stays until the next frame whose required set does
    not hold the coordinate: that frame removes it from the resident table,
    the terrain-data map and the loading set, and does not request it. *)
Theorem orphaned_result_installed_until_next_frame
    (coord : ChunkCoordinate) (terrain : TerrainData) (w : t) :
  pending w !! key_of coord = Some coord ->
  let key := key_of coord in
  let w1 := onWorkerMessage coord terrain w in
  chunkTerrainData w1 !! key = Some terrain
  /\ (exists r chunk,
        resident w1 !! key = Some r /\ objects w1 !! r = Some chunk
        /\ coordinate chunk = coord /\ isLoaded chunk = false)
  /\ (key ∉ loadingChunks w1)
  /\ (forall pos p w2,
        ChunkManager.worldToChunk (chunkManagerRef w1) pos = Some p ->
        coord ∉ ChunkManager.getRequiredChunks (chunkManagerRef w1) p ->
        useFrame pos w1 = Some w2 ->
        chunkTerrainData w2 !! key = None
        /\ resident w2 !! key = None
        /\ (key ∉ loadingChunks w2)
        /\ (coord ∉ requestsSince w1 w2)).
Proof.
  intros Hp key w1.
  destruct (onWorkerMessage_pending coord terrain w Hp)
    as (Hs & Ho & Hr & Ht & Hl & _ & _).
  fold key w1 in Hs, Ho, Hr, Ht, Hl.
  assert (Hres : resident w1 !! key = Some (length (objects w))).
  { rewrite Hr. apply lookup_insert_eq. }
  split; [rewrite Ht; apply lookup_insert_eq|].
  split.
  { eexists _, _. split; [exact Hres|]. split.
    - rewrite Ho. apply list_lookup_middle. reflexivity.
    - split; reflexivity. }
  split; [rewrite Hl; set_solver|].
  intros pos p w2 Hpos Hnot Hframe.
  apply useFrame_spec in Hframe
    as (p' & Hp' & _ & _ & _ & _ & _ & Hnew & Hres2 & Hter2 & Hload2).
  rewrite Hpos in Hp'. injection Hp' as <-.
  assert (Hkey : key ∉ key_of <$> ChunkManager.getRequiredChunks (chunkManagerRef w1) p).
  { intros Hin. apply Hnot. apply (chunkKey_required (chunkManagerRef w1) p coord). exact Hin. }
  split; [|split; [|split]].
  - rewrite Hter2, decide_True; [reflexivity|]. split; [rewrite Hres; eauto|exact Hkey].
  - rewrite Hres2, decide_False by exact Hkey. reflexivity.
  - intros Hin. apply Hload2 in Hin as [_ Hin]. apply Hin.
    split; [rewrite Hres; eauto|exact Hkey].
  - intros Hin. destruct (Hnew coord Hin) as (Hr' & _). contradiction.
Qed.

Lemma orphaned_result_installed_until_next_frame_witness :
  let w := stateAfter [Frame origin; Frame farEast] in
  let w1 := onWorkerMessage originChunk quad w in
  pending w !! key_of originChunk = Some originChunk
  /\ chunkTerrainData w1 !! key_of originChunk = Some quad
  /\ (key_of originChunk ∉ loadingChunks w1).
Proof.
  intros w w1.
  assert (Hp : pending w !! key_of originChunk = Some originChunk) by (vm_compute; reflexivity).
  split; [exact Hp|].
  destruct (orphaned_result_installed_until_next_frame originChunk quad w Hp) as (H1 & _ & H3 & _).
  split; [exact H1|exact H3].
Defined.

(** C4 as stated fails: the request for the chunk at the origin is still in
    flight when the player has moved ten chunks east; its result is then
    installed in the terrain-data map and registered in the resident table. *)
Lemma orphaned_result_not_dropped :
  ~ (forall (w : t) (coordinate : ChunkCoordinate) (terrain : TerrainData),
       let key := key_of coordinate in
       pending w !! key = Some coordinate ->
       key ∈ loadingChunks w ->
       key ∉ ChunkManager.visibleChunks (ChunkManager.worldState (chunkManagerRef w)) ->
       let w1 := onWorkerMessage coordinate terrain w in
       chunkTerrainData w1 !! key = chunkTerrainData w !! key
       /\ resident w1 !! key = resident w !! key).
Proof.
  intros H.
  destruct (H (stateAfter [Frame origin; Frame farEast]) originChunk quad) as [H1 H2].
  - vm_compute. reflexivity.
  - apply elem_of_elements. vm_compute. repeat constructor.
  - intros Hin. apply elem_of_elements in Hin. vm_compute in Hin.
    repeat (apply elem_of_cons in Hin as [Hin|Hin]; [discriminate Hin|]).
    inversion Hin.
  - vm_compute in H2. discriminate H2.
Qed.

(** C9 (amended). No event changes the [coordinate], [position],
    [isVisible] or [needsUpdate] of a [WorldChunk] object once it exists, and
    [ChunkManager] itself never writes to an existing object (it registers
    fresh ones and deletes table entries).  The one write is the effect of
    [TerrainChunk], outside [ChunkManager]: on the not yet loaded chunk it is
    rendered for it sets [isLoaded] to true and [mesh] to the mounted mesh. *)
Theorem step_changes_only_isLoaded_and_mesh (e : event) (w w' : t) (r : nat) (c : WorldChunk) :
  step e w = Some w' ->
  objects w !! r = Some c ->
  exists c',
    objects w' !! r = Some c'
    /\ coordinate c' = coordinate c
    /\ position c' = position c
    /\ isVisible c' = isVisible c
    /\ needsUpdate c' = needsUpdate c
    /\ (c' = c
        \/ exists m, e = MeshMounted r (Some m)
                     /\ isLoaded c = false /\ isLoaded c' = true /\ mesh c' = Some m).
Proof.
  intros Hstep Hc. destruct e as [pos|coord terrain|chunk meshRef]; simpl in Hstep.
  - apply useFrame_spec in Hstep as (p & _ & _ & _ & Ho & _).
    exists c. rewrite Ho. repeat split; auto.
  - injection Hstep as <-. exists c. split; [|repeat split; auto].
    unfold onWorkerMessage. destruct (pending w !! key_of coord) as [coord'|]; [|exact Hc].
    simpl. apply lookup_app_l_Some. exact Hc.
  - injection Hstep as <-. unfold terrainChunkEffect.
    destruct (objects w !! chunk) as [c0|] eqn:Hc0; [|exists c; repeat split; auto].
    destruct meshRef as [m|]; [|exists c; repeat split; auto].
    destruct (isLoaded c0) eqn:Hl; simpl; [exists c; repeat split; auto|].
    destruct (decide (chunk = r)) as [->|Hne].
    + rewrite Hc in Hc0. injection Hc0 as <-.
      eexists. split; [apply list_lookup_insert_eq; eapply lookup_lt_Some; exact Hc|].
      simpl. repeat split. right. exists m. repeat split. exact Hl.
    + exists c. split; [rewrite list_lookup_insert_ne by exact Hne; exact Hc|].
      repeat split; auto.
Qed.

Lemma step_changes_only_isLoaded_and_mesh_witness :
  let w := stateAfter [Frame origin; WorkerMessage originChunk quad] in
  let w' := terrainChunkEffect 0 (Some mountedMesh) w in
  step (MeshMounted 0 (Some mountedMesh)) w = Some w'
  /\ objects w !! 0%nat = Some flatChunk
  /\ exists c', objects w' !! 0%nat = Some c'
                /\ coordinate c' = originChunk /\ isLoaded c' = true.
Proof.
  intros w w'.
  assert (H1 : step (MeshMounted 0 (Some mountedMesh)) w = Some w') by reflexivity.
  assert (H2 : objects w !! 0%nat = Some flatChunk) by (vm_compute; reflexivity).
  split; [exact H1|]. split; [exact H2|].
  destruct (step_changes_only_isLoaded_and_mesh _ _ _ _ _ H1 H2)
    as (c' & Hc' & Hco & _ & _ & _ & [->|(m & _ & _ & Hl & _)]).
  - exfalso. vm_compute in Hc'. discriminate Hc'.
  - exists c'. split; [exact Hc'|]. split; [exact Hco|exact Hl].
Defined.

(** C9 as stated fails: the effect of [TerrainChunk] changes a chunk that
    is registered in the resident table. *)
Lemma registered_chunk_mutated_by_TerrainChunk :
  ~ (forall (e : event) (w w' : t) (key : string) (r : nat) (c : WorldChunk),
       step e w = Some w' ->
       resident w !! key = Some r ->
       objects w !! r = Some c ->
       objects w' !! r = Some c).
Proof.
  intros H.
  specialize (H (MeshMounted 0 (Some mountedMesh))
                (stateAfter [Frame origin; WorkerMessage originChunk quad])
                _ "0,0" 0%nat flatChunk eq_refl).
  assert (H1 : resident (stateAfter [Frame origin; WorkerMessage originChunk quad]) !! "0,0"
               = Some 0%nat) by (vm_compute; reflexivity).
  assert (H2 : objects (stateAfter [Frame origin; WorkerMessage originChunk quad]) !! 0%nat
               = Some flatChunk) by (vm_compute; reflexivity).
  specialize (H H1 H2). vm_compute in H. discriminate H.
Qed.

End CoordinatorFacts.

(* ================================================================== *)
(** * Properties of the scatter placement *)
(* ================================================================== *)

Section ScatterFacts.
Variable Math_sin : float -> float.
Variable pow : float -> float -> float.

#[local] Abbreviation candidate := (WorldGenerator.candidate Math_sin pow).
#[local] Abbreviation placeCandidate := (WorldGenerator.placeCandidate Math_sin pow).
#[local] Abbreviation scatter := (WorldGenerator.scatter Math_sin pow).
#[local] Abbreviation seededRandom := (WorldGenerator.seededRandom Math_sin pow).

(** Folding the loop body over any list of iterations. *)
Lemma foldl_placeCandidate (s : WorldGenerationSettings float) (hm : list (list float))
    (seed : Z) (l : list Z) (cubes : list Cube) (balls : list Ball) :
  foldl (fun acc i => acc ≫= placeCandidate s hm seed i) (Some (cubes, balls)) l
  = if existsb throws (candidate s hm seed <$> l) then None
    else Some (cubes ++ cubesPlaced (candidate s hm seed <$> l),
               balls ++ ballsPlaced (candidate s hm seed <$> l)).
Proof.
  revert cubes balls. induction l as [|i l IH]; intros cubes balls.
  - unfold cubesPlaced, ballsPlaced. simpl. rewrite !app_nil_r. reflexivity.
  - assert (Hnone : foldl (fun acc i => acc ≫= placeCandidate s hm seed i) None l = None).
    { clear. induction l as [|j l IH]; [reflexivity|exact IH]. }
    rewrite fmap_cons.
    change (foldl (fun acc i => acc ≫= placeCandidate s hm seed i) (Some (cubes, balls)) (i :: l))
      with (foldl (fun acc i => acc ≫= placeCandidate s hm seed i)
              (match candidate s hm seed i with
               | Throw => None
               | Rejected | NothingPlaced => Some (cubes, balls)
               | PlaceCube c => Some (cubes ++ [c], balls)
               | PlaceBall b => Some (cubes, balls ++ [b])
               end) l).
    destruct (candidate s hm seed i) as [| | |c|b] eqn:Hc;
      unfold cubesPlaced, ballsPlaced in *; simpl.
    + exact Hnone.
    + apply IH.
    + apply IH.
    + rewrite IH. destruct (existsb throws _); [reflexivity|].
      rewrite <- app_assoc. reflexivity.
    + rewrite IH. destruct (existsb throws _); [reflexivity|].
      rewrite <- app_assoc. reflexivity.
Qed.

Lemma placed_le_accepted (ps : list placement) :
  (length (cubesPlaced ps) + length (ballsPlaced ps) <= length (List.filter accepted ps))%nat
  /\ (length (List.filter accepted ps) <= length ps)%nat.
Proof.
  split.
  - induction ps as [|p ps IH]; [reflexivity|].
    unfold cubesPlaced, ballsPlaced in *.
    destruct p; cbn [omap list_omap accepted List.filter length] in *.
    all: lia.
  - induction ps as [|p ps IH]; [reflexivity|].
    simpl. destruct (accepted p); simpl; lia.
Qed.

(** C6 (amended). The scatter loop of [generateChunk] runs exactly eight
    iterations, seeded from [x * 73856093 ^ z * 19349663] of the chunk
    coordinate alone (no setting enters the seed).  A candidate whose height
    read is [undefined] or not above [waterLevel + 3] is rejected and places
    nothing.  An accepted candidate places at most one object, chosen by the
    draw at [seed + 10 i + 2]: a cube of size [0.6 + 2.8 d3] when the draw is
    above 0.5, a ball of radius [0.3 + 0.8 d4] when it is above 0.3 but not
    above 0.5, and nothing otherwise.  The two lists hold these objects in
    iteration order, so there are at most as many objects as accepted
    candidates, and at most eight. *)
Theorem scatter_places_at_most_one_object_per_candidate
    (s : WorldGenerationSettings float) (hm : list (list float))
    (coordinate : ChunkCoordinate) :
  let seed := WorldGenerator.prngSeed pow coordinate in
  let candidates := candidate s hm seed <$> [0; 1; 2; 3; 4; 5; 6; 7] in
  (* eight candidates, in order; the loop throws when one of the reads does *)
  scatter s hm coordinate
  = (if existsb throws candidates then None
     else Some (cubesPlaced candidates, ballsPlaced candidates))
  /\ (length (cubesPlaced candidates) + length (ballsPlaced candidates)
      <= length (List.filter accepted candidates) <= 8)%nat
  (* the seed is a hash of the coordinate alone *)
  /\ seed = Z.lxor (JS.ToInt32 (JS.of_Z (ChunkCoordinate.x coordinate) * 73856093)%float)
                   (JS.ToInt32 (JS.of_Z (ChunkCoordinate.z coordinate) * 19349663)%float)
  (* what is decided for the candidate of iteration i *)
  /\ forall i,
       let draw k := seededRandom (JS.of_Z (seed + i * 10 + k)) in
       let rx := (5 + JS.Math_floor (seededRandom (JS.of_Z (seed + i * 10)) * (chunkSize s - 10)))%float in
       let rz := (5 + JS.Math_floor (draw 1%Z * (chunkSize s - 10)))%float in
       let gridX := JS.Math_floor ((rx / chunkSize s) * JS.of_Z (meshResolution s))%float in
       let gridZ := JS.Math_floor ((rz / chunkSize s) * JS.of_Z (meshResolution s))%float in
       match WorldGenerator.terrainHeightAt hm gridZ gridX with
       | Throws => candidate s hm seed i = Throw
       | Undefined => candidate s hm seed i = Rejected
       | Height h =>
           if (waterLevel s + 3 <? h)%float then
             if (JS.of_Q 0.5 <? draw 2%Z)%float then
               let size := (JS.of_Q 0.6 + draw 3%Z * JS.of_Q 2.8)%float in
               candidate s hm seed i = PlaceCube (Cube.mk rx (h + size * JS.of_Q 0.5)%float rz size)
             else if (JS.of_Q 0.3 <? draw 2%Z)%float then
               let radius := (JS.of_Q 0.3 + draw 4%Z * JS.of_Q 0.8)%float in
               candidate s hm seed i
               = PlaceBall (Ball.mk rx (h + radius + JS.of_Q 0.5)%float rz radius)
             else candidate s hm seed i = NothingPlaced
           else candidate s hm seed i = Rejected
       end.
Proof.
  intros seed candidates.
  split; [|split; [|split]].
  - unfold WorldGenerator.scatter.
    change (seqZ 0 8) with [0; 1; 2; 3; 4; 5; 6; 7].
    rewrite foldl_placeCandidate. reflexivity.
  - pose proof (placed_le_accepted candidates) as [H1 H2].
    split; [exact H1|]. etransitivity; [exact H2|]. reflexivity.
  - reflexivity.
  - intros i. cbv zeta.
    remember (candidate s hm seed i) as o eqn:Ho.
    unfold WorldGenerator.candidate in Ho. cbv zeta in Ho.
    match goal with
    | |- match ?T with _ => _ end =>
        match type of Ho with
        | _ = match ?T' with _ => _ end => change T' with T in Ho; destruct T as [| |h]
        end
    end; try exact Ho.
    match goal with
    | |- (if ?B then _ else _) =>
        match type of Ho with
        | _ = (if ?B' then _ else _) => change B' with B in Ho; destruct B
        end
    end; try exact Ho.
    match goal with
    | |- (if ?B then _ else _) =>
        match type of Ho with
        | _ = (if ?B' then _ else _) => change B' with B in Ho; destruct B
        end
    end; try exact Ho.
    match goal with
    | |- (if ?B then _ else _) =>
        match type of Ho with
        | _ = (if ?B' then _ else _) => change B' with B in Ho; destruct B
        end
    end; exact Ho.
Qed.

End ScatterFacts.

(** C6 as stated fails: on level ground above the water every one of the
    eight candidates of the chunk at the origin is accepted, but only three
    objects are placed; the second candidate draws
    [frac(10000 sin 12) = 0.2708...] and places nothing. *)
Lemma accepted_candidates_place_nothing :
  let hm := WorldGenerator.heightMap powOnUnit levelGround originChunk in
  let candidates :=
    WorldGenerator.candidate (sineOn sineTable) powOnUnit scenarioSettings hm
      (WorldGenerator.prngSeed powOnUnit originChunk) <$> [0; 1; 2; 3; 4; 5; 6; 7] in
  length (List.filter accepted candidates) = 8%nat
  /\ candidates !! 1%nat = Some NothingPlaced
  /\ match WorldGenerator.generateChunk (sineOn sineTable) powOnUnit levelGround originChunk with
     | Some terrain => length (cubes terrain) = 2%nat /\ length (balls terrain) = 1%nat
     | None => False
     end.
Proof. vm_compute. repeat split. Qed.

(* ================================================================== *)
(** * Reproducibility of chunk generation *)
(* ================================================================== *)

Section Reproducibility.
Context {PRNG : Type}.
Variable alea : string -> PRNG.
Variable createNoise2D : PRNG -> float -> float -> float.
Variable Math_sin : float -> float.
Variable pow : float -> float -> float.

#[local] Abbreviation newGenerator := (initializeNoiseGenerators alea createNoise2D).

(** The height function reads neither [mountainSharpness] nor
    [renderDistance]. *)
Lemma getHeightAt_sameGenerationInputs (s1 s2 : WorldGenerationSettings float) (x z : float) :
  sameGenerationInputs s1 s2 ->
  getHeightAt (N := Float64 pow) (newGenerator s1) x z
  = getHeightAt (N := Float64 pow) (newGenerator s2) x z.
Proof.
  destruct s1, s2. unfold sameGenerationInputs. simpl.
  intros (-> & -> & -> & -> & -> & -> & -> & -> & -> & -> & -> & ->).
  reflexivity.
Qed.

End Reproducibility.


(* ================================================================== *)
(** * Seam continuity *)
(* ================================================================== *)

Section SeamFacts.
Variable pow : float -> float -> float.
Variable Math_sin : float -> float.

#[local] Abbreviation heightMap := (WorldGenerator.heightMap pow).
#[local] Abbreviation heightSamples := (WorldGenerator.heightSamples pow).
#[local] Abbreviation samplePosition := WorldGenerator.samplePosition.
#[local] Abbreviation vertexPositions := (WorldGenerator.vertexPositions pow).
#[local] Abbreviation heightAt g := (getHeightAt (N := Float64 pow) g).

(** The entry [i * k + j] of a list built from blocks of [k] elements. *)
Lemma lookup_bind_block {A B : Type} (f : A -> list B) (k : nat) (l : list A)
    (i j : nat) (a : A) :
  (forall x, length (f x) = k) -> l !! i = Some a -> (j < k)%nat ->
  (l ≫= f) !! (i * k + j)%nat = f a !! j.
Proof.
  intros Hf. revert i. induction l as [|x l IH]; intros i Hi Hj; [discriminate|].
  csimpl. destruct i as [|i]; simpl in Hi.
  - injection Hi as ->. simpl. rewrite lookup_app_l by (rewrite Hf; exact Hj). reflexivity.
  - rewrite lookup_app_r by (rewrite Hf; lia).
    rewrite Hf. replace (S i * k + j - k)%nat with (i * k + j)%nat by lia.
    apply IH; assumption.
Qed.

Lemma element_seqZ_fmap {A : Type} (f : Z -> A) (start len k : Z) :
  0 <= k < len -> JS.element (f <$> seqZ start len) k = Some (f (start + k)).
Proof.
  intros Hk. unfold JS.element. rewrite length_fmap, length_seqZ.
  replace (0 <=? k) with true by (symmetry; apply Z.leb_le; lia).
  replace (k <? Z.of_nat (Z.to_nat len)) with true by (symmetry; apply Z.ltb_lt; lia).
  simpl. rewrite list_lookup_fmap, lookup_seqZ_lt by lia.
  simpl. rewrite Z2Nat.id by lia. reflexivity.
Qed.

(** Every entry of the height map is the height function at the sample
    position of its row and column. *)
Lemma heightMapAt_heightMap (g : WorldGenerator float) (coordinate : ChunkCoordinate)
    (z x : Z) :
  let s := settings g in
  - 2 <= z <= meshResolution s + 2 -> - 2 <= x <= meshResolution s + 2 ->
  WorldGenerator.heightMapAt (heightMap g coordinate) (z + 2) (x + 2)
  = heightAt g
      (samplePosition s (JS.of_Z (ChunkCoordinate.x coordinate) * chunkSize s)%float x)
      (samplePosition s (JS.of_Z (ChunkCoordinate.z coordinate) * chunkSize s)%float z).
Proof.
  intros s Hz Hx. unfold WorldGenerator.heightMapAt, WorldGenerator.heightMap.
  fold s. unfold WorldGenerator.borderSize.
  rewrite element_seqZ_fmap by lia. simpl.
  rewrite element_seqZ_fmap by lia. simpl.
  replace (- (2) + (x + 2)) with x by lia. replace (- (2) + (z + 2)) with z by lia.
  reflexivity.
Qed.

Lemma bind_nil_all {A B : Type} (f : A -> list B) (l : list A) :
  (forall x, x ∈ l -> f x = []) -> l ≫= f = [].
Proof.
  induction l as [|x l IH]; intros H; [reflexivity|].
  csimpl. rewrite (H x) by left. rewrite IH; [reflexivity|].
  intros y Hy. apply H. right. exact Hy.
Qed.

Lemma bind_ext_in {A B : Type} (f g : A -> list B) (l : list A) :
  (forall x, x ∈ l -> f x = g x) -> l ≫= f = l ≫= g.
Proof.
  induction l as [|x l IH]; intros H; [reflexivity|].
  csimpl. rewrite (H x) by left. rewrite IH; [reflexivity|].
  intros y Hy. apply H. right. exact Hy.
Qed.

(** A loop over a range that acts only on the indices in [0, res). *)
Lemma bind_seqZ_guard {B : Type} (h : Z -> list B) (lo n res : Z) :
  lo <= 0 -> 0 <= res -> res <= lo + n ->
  (seqZ lo n ≫= fun x => if (0 <=? x) && (x <? res) then h x else [])
  = seqZ 0 res ≫= h.
Proof.
  intros Hlo Hres Hn.
  replace n with (- lo + (res + (n + lo - res))) by lia.
  rewrite seqZ_app by lia. replace (lo + - lo) with 0 by lia.
  rewrite seqZ_app by lia. rewrite !bind_app. simpl (0 + res).
  rewrite (bind_nil_all _ (seqZ lo (- lo))).
  2:{ intros x Hx. apply elem_of_seqZ in Hx.
      replace (0 <=? x) with false by (symmetry; apply Z.leb_gt; lia). reflexivity. }
  rewrite (bind_nil_all _ (seqZ res _)).
  2:{ intros x Hx. apply elem_of_seqZ in Hx.
      replace (x <? res) with false by (symmetry; apply Z.ltb_ge; lia).
      rewrite andb_false_r. reflexivity. }
  rewrite app_nil_r. simpl.
  apply bind_ext_in. intros x Hx. apply elem_of_seqZ in Hx.
  replace (0 <=? x) with true by (symmetry; apply Z.leb_le; lia).
  replace (x <? res) with true by (symmetry; apply Z.ltb_lt; lia).
  reflexivity.
Qed.

(** The [heights] array holds the samples of the chunk proper, row by row. *)
Lemma heightSamples_rows (g : WorldGenerator float) (coordinate : ChunkCoordinate) :
  let s := settings g in
  0 <= meshResolution s ->
  heightSamples g coordinate
  = z ← seqZ 0 (meshResolution s + 1);
    x ← seqZ 0 (meshResolution s + 1);
    [heightAt g
       (samplePosition s (JS.of_Z (ChunkCoordinate.x coordinate) * chunkSize s)%float x)
       (samplePosition s (JS.of_Z (ChunkCoordinate.z coordinate) * chunkSize s)%float z)].
Proof.
  intros s Hm. unfold WorldGenerator.heightSamples. fold s.
  unfold WorldGenerator.borderSize.
  set (res := meshResolution s + 1).
  set (h := fun z x => heightAt g
       (samplePosition s (JS.of_Z (ChunkCoordinate.x coordinate) * chunkSize s)%float x)
       (samplePosition s (JS.of_Z (ChunkCoordinate.z coordinate) * chunkSize s)%float z)).
  rewrite <- (bind_seqZ_guard (fun z => seqZ 0 res ≫= fun x => [h z x]) (- (2)) (res + 2 * 2) res)
    by lia.
  apply bind_ext_in. intros z _.
  destruct ((0 <=? z) && (z <? res)) eqn:Ez.
  - rewrite <- (bind_seqZ_guard (fun x => [h z x]) (- (2)) (res + 2 * 2) res) by lia.
    apply bind_ext_in. intros x _.
    rewrite <- andb_assoc, Ez, andb_true_r. reflexivity.
  - apply bind_nil_all. intros x _.
    rewrite <- andb_assoc, Ez, andb_false_r. reflexivity.
Qed.

Lemma lookup_grid {B : Type} (f : Z -> Z -> list B) (k : nat) (res z x : Z) (j : nat) :
  (forall z x, length (f z x) = k) -> 0 <= z < res -> 0 <= x < res -> (j < k)%nat ->
  (seqZ 0 res ≫= fun z => seqZ 0 res ≫= f z) !! (Z.to_nat (z * res + x) * k + j)%nat
  = f z x !! j.
Proof.
  intros Hf Hz Hx Hj.
  replace (Z.to_nat (z * res + x) * k + j)%nat
    with (Z.to_nat z * (Z.to_nat res * k) + (Z.to_nat x * k + j))%nat by nia.
  rewrite (lookup_bind_block _ (Z.to_nat res * k) _ _ _ z).
  - rewrite (lookup_bind_block _ k _ _ _ x); [reflexivity|apply Hf| |exact Hj].
    rewrite lookup_seqZ_lt by lia. f_equal. lia.
  - intros z'. rewrite (length_bind_const _ k) by apply Hf.
    rewrite length_seqZ. reflexivity.
  - rewrite lookup_seqZ_lt by lia. f_equal. lia.
  - assert (Z.to_nat x < Z.to_nat res)%nat by lia. nia.
Qed.

Lemma generateChunk_arrays (g : WorldGenerator float) (coordinate : ChunkCoordinate)
    (terrain : TerrainData) :
  WorldGenerator.generateChunk Math_sin pow g coordinate = Some terrain ->
  heights terrain = Float32Array (heightSamples g coordinate)
  /\ vertices terrain = Float32Array (vertexPositions (settings g) (heightMap g coordinate)).
Proof.
  unfold WorldGenerator.generateChunk.
  destruct (WorldGenerator.scatter _ _ _ _ _) as [[cs bs]|]; simpl; [|discriminate].
  intros H. apply (inj Some) in H. subst terrain. split; reflexivity.
Qed.

(** The height stored for grid row [z], column [x] of a chunk, in the
    [heights] array and as the Y component of the vertex. *)
Lemma generateChunk_height (g : WorldGenerator float) (coordinate : ChunkCoordinate)
    (terrain : TerrainData) (z x : Z) :
  let s := settings g in
  let res := meshResolution s + 1 in
  let h := Math_fround
             (heightAt g
                (samplePosition s (JS.of_Z (ChunkCoordinate.x coordinate) * chunkSize s)%float x)
                (samplePosition s (JS.of_Z (ChunkCoordinate.z coordinate) * chunkSize s)%float z)) in
  WorldGenerator.generateChunk Math_sin pow g coordinate = Some terrain ->
  0 <= z < res -> 0 <= x < res ->
  heights terrain !! Z.to_nat (z * res + x) = Some h
  /\ vertices terrain !! (Z.to_nat (z * res + x) * 3 + 1)%nat = Some h.
Proof.
  intros s res h Hgen Hz Hx.
  destruct (generateChunk_arrays _ _ _ Hgen) as [-> ->].
  unfold Float32Array. rewrite !list_lookup_fmap. split.
  - rewrite heightSamples_rows by (fold s; lia). fold s. fold res.
    replace (Z.to_nat (z * res + x)) with (Z.to_nat (z * res + x) * 1 + 0)%nat by lia.
    rewrite (lookup_grid (fun z x => [_]) 1) by (try reflexivity; lia).
    reflexivity.
  - unfold WorldGenerator.vertexPositions. fold s. fold res.
    rewrite (lookup_grid (fun z x => [_; _; _]) 3) by (try reflexivity; lia).
    simpl. rewrite heightMapAt_heightMap by (fold s; lia).
    reflexivity.
Qed.


End SeamFacts.



(* ================================================================== *)
(** * The envelope of the height function *)
(* ================================================================== *)

Section Envelope.
Context {PRNG : Type}.
Variable alea : string -> PRNG.
Variable createNoise2D : PRNG -> R -> R -> R.
Variable pow : R -> R -> R.
#[local] Open Scope R_scope.

Hypothesis noise_range : forall prng x z, -1 <= createNoise2D prng x z <= 1.
Hypothesis pow_range : forall b e, 0 <= b <= 1 -> 0 < e -> 0 <= pow b e <= 1.

#[local] Abbreviation fractalR := (fractal (N := Exact pow)).

Ltac literals := unfold Q2R; cbn [Qnum Qden]; try lra.

(** The octave loop keeps [value] within [maxValue] in absolute value;
    [sigma] is the sign of the amplitude. *)
Lemma fractal_loop_range (noiseFunc : R -> R -> R) (octaves : nat) (x z p l : R)
    (sigma v ca cs mv : R) :
  (forall x z, -1 <= noiseFunc x z <= 1) ->
  sigma = 1 \/ sigma = -1 -> 0 < p ->
  0 < sigma * ca -> - (sigma * mv) <= v <= sigma * mv ->
  let '(v', mv') := fractal_loop (N := Exact pow) octaves x z noiseFunc p l v ca cs mv in
  - (sigma * mv') <= v' <= sigma * mv'
  /\ sigma * mv <= sigma * mv'
  /\ ((0 < octaves)%nat -> sigma * mv + sigma * ca <= sigma * mv').
Proof.
  intros Hn Hs Hp. revert v ca cs mv.
  induction octaves as [|k IH]; intros v ca cs mv Hca Hv.
  - simpl. split; [exact Hv|]. split; [lra|]. intros H. inversion H.
  - cbn [fractal_loop num_add num_mul Exact].
    specialize (IH (v + noiseFunc (x * cs) (z * cs) * ca) (ca * p) (cs * l) (mv + ca)).
    destruct (fractal_loop k x z noiseFunc p l _ _ _ _) as [v' mv'].
    pose proof (Hn (x * cs) (z * cs)) as Hb.
    destruct IH as (H1 & H2 & H3).
    + destruct Hs as [-> | ->]; nra.
    + destruct Hs as [-> | ->]; nra.
    + split; [exact H1|]. split; [|intros _]; destruct Hs as [-> | ->]; lra.
Qed.

(** [fractal] is a weighted mean of noise values: whatever the amplitude,
    it stays within the range of the noise. *)
Lemma fractal_range (noiseFunc : R -> R -> R) (octaves : nat) (x z scale amplitude p l : R) :
  (forall x z, -1 <= noiseFunc x z <= 1) ->
  (0 < octaves)%nat -> amplitude <> 0 -> 0 < p ->
  -1 <= fractalR x z noiseFunc octaves scale amplitude p l <= 1.
Proof.
  intros Hn Ho Ha Hp. unfold fractal.
  replace (@num_lit R (Exact pow) 0%Q) with 0 by (cbn; literals).
  destruct (Rtotal_order amplitude 0) as [Hneg|[H0|Hpos]]; [|contradiction|].
  - pose proof (fractal_loop_range noiseFunc octaves x z p l (-1) 0 amplitude scale 0
                  Hn (or_intror eq_refl) Hp) as H.
    destruct (fractal_loop octaves x z noiseFunc p l 0 amplitude scale 0) as [v mv].
    destruct H as (H1 & _ & H3); [lra|lra|]. specialize (H3 Ho).
    cbn [num_div Exact]. unfold Rdiv.
    assert (Hmv : mv < 0) by lra.
    pose proof (Rinv_lt_0_compat mv Hmv) as Hi.
    assert (Hone : mv * / mv = 1) by (apply Rinv_r; lra).
    split; nra.
  - pose proof (fractal_loop_range noiseFunc octaves x z p l 1 0 amplitude scale 0
                  Hn (or_introl eq_refl) Hp) as H.
    destruct (fractal_loop octaves x z noiseFunc p l 0 amplitude scale 0) as [v mv].
    destruct H as (H1 & _ & H3); [lra|lra|]. specialize (H3 Ho).
    cbn [num_div Exact]. unfold Rdiv.
    assert (Hmv : 0 < mv) by lra.
    pose proof (Rinv_0_lt_compat mv Hmv) as Hi.
    assert (Hone : mv * / mv = 1) by (apply Rinv_r; lra).
    split; nra.
Qed.

(** [6 u^5 - 15 u^4 + 10 u^3] maps [0, 1] into itself. *)
Lemma smootherstep_range (a b t : R) :
  0 <= smootherstep (N := Exact pow) a b t <= 1.
Proof.
  unfold smootherstep. cbn [num_add num_sub num_mul num_div num_lit Math_max Math_min Exact].
  set (q := (t - a) / (b - a)).
  replace (Q2R 0) with 0 by literals. replace (Q2R 1) with 1 by literals.
  replace (Q2R 6) with 6 by literals. replace (Q2R 15) with 15 by literals.
  replace (Q2R 10) with 10 by literals.
  set (u := Rmax 0 (Rmin 1 q)).
  assert (Hu : 0 <= u <= 1).
  { unfold u. split; [apply Rmax_l|].
    apply Rmax_lub; [lra|apply Rmin_l]. }
  clearbody u. clear q.
  assert (E : u * u * u * (u * (u * 6 - 15) + 10) = u * u * u * (6 * (u - 5/4) * (u - 5/4) + 5/8)) by field.
  assert (E1 : 1 - u * u * u * (u * (u * 6 - 15) + 10)
               = (1 - u) * (1 - u) * (1 - u) * (6 * u * u + 3 * u + 1)) by ring.
  split.
  - rewrite E. assert (0 <= u * u * u) by (apply Rmult_le_pos; [apply Rmult_le_pos|]; lra).
    apply Rmult_le_pos; [assumption|]. nra.
  - assert (0 <= (1 - u) * (1 - u) * (1 - u) * (6 * u * u + 3 * u + 1)).
    { apply Rmult_le_pos; [apply Rmult_le_pos; [apply Rmult_le_pos|]; lra|]. nra. }
    lra.
Qed.

Lemma ridged_range (noiseFunc : R -> R -> R) (x z scale amplitude sharpness : R) :
  (forall x z, -1 <= noiseFunc x z <= 1) -> 0 < sharpness ->
  Rmin 0 amplitude <= ridged (N := Exact pow) x z noiseFunc scale amplitude sharpness
  <= Rmax 0 amplitude.
Proof.
  intros Hn Hs. unfold ridged. cbn [num_sub num_mul num_lit Math_abs Math_pow Exact].
  replace (Q2R 1) with 1 by literals.
  pose proof (Hn (x * scale) (z * scale)) as Hb.
  assert (Ha : 0 <= 1 - Rabs (noiseFunc (x * scale) (z * scale)) <= 1).
  { pose proof (Rabs_pos (noiseFunc (x * scale) (z * scale))).
    assert (Rabs (noiseFunc (x * scale) (z * scale)) <= 1) by (apply Rabs_le; lra). lra. }
  pose proof (pow_range _ sharpness Ha Hs) as Hp.
  set (w := pow _ _) in *. clearbody w.
  unfold Rmin, Rmax. destruct (Rle_dec 0 amplitude); split; nra.
Qed.

Lemma billow_range (noiseFunc : R -> R -> R) (x z scale amplitude : R) :
  (forall x z, -1 <= noiseFunc x z <= 1) ->
  Rmin 0 amplitude <= billow (N := Exact pow) x z noiseFunc scale amplitude <= Rmax 0 amplitude.
Proof.
  intros Hn. unfold billow. cbn [num_mul Math_abs Exact].
  pose proof (Hn (x * scale) (z * scale)) as Hb.
  pose proof (Rabs_pos (noiseFunc (x * scale) (z * scale))).
  assert (Rabs (noiseFunc (x * scale) (z * scale)) <= 1) by (apply Rabs_le; lra).
  set (w := Rabs _) in *. clearbody w.
  unfold Rmin, Rmax. destruct (Rle_dec 0 amplitude); split; nra.
Qed.

Ltac bound_smootherstep :=
  match goal with
  | |- context [@smootherstep R ?N ?a ?b ?t] =>
      let H := fresh "Hm" in let m := fresh "m" in
      pose proof (smootherstep_range a b t) as H;
      set (m := @smootherstep R N a b t) in *; clearbody m
  end.

Ltac bound_fractal :=
  match goal with
  | |- context [@fractal R ?N ?x ?z ?n ?o ?sc ?a ?p ?l] =>
      let H := fresh "Hf" in let f := fresh "f" in
      assert (H : -1 <= @fractal R N x z n o sc a p l <= 1)
        by (apply fractal_range;
            [apply noise_range | lia
            | cbn [num_mul num_lit Exact]; literals; nra
            | cbn [num_lit Exact]; literals]);
      set (f := @fractal R N x z n o sc a p l) in *; clearbody f
  end.

Ltac bound_ridged :=
  match goal with
  | |- context [@ridged R ?N ?x ?z ?n ?sc ?a ?sh] =>
      let H := fresh "Hr" in let r := fresh "r" in
      assert (H : Rmin 0 a <= @ridged R N x z n sc a sh <= Rmax 0 a)
        by (apply ridged_range; [apply noise_range | cbn [num_lit Exact]; literals]);
      set (r := @ridged R N x z n sc a sh) in *; clearbody r
  end.

Ltac bound_billow :=
  match goal with
  | |- context [@billow R ?N ?x ?z ?n ?sc ?a] =>
      let H := fresh "Hb" in let r := fresh "b" in
      assert (H : Rmin 0 a <= @billow R N x z n sc a <= Rmax 0 a)
        by (apply billow_range; apply noise_range);
      set (r := @billow R N x z n sc a) in *; clearbody r
  end.

End Envelope.

Lemma powOnReals_range (b e : R) :
  (0 <= b <= 1)%R -> (0 < e)%R -> (0 <= powOnReals b e <= 1)%R.
Proof.
  intros Hb He. unfold powOnReals. destruct (Req_dec_T b 0) as [_|Hnz]; [lra|].
  unfold Rpower. split; [left; apply exp_pos|].
  rewrite <- exp_0.
  assert (Hln : (ln b <= 0)%R).
  { rewrite <- ln_1. destruct (Req_dec b 1) as [->|H1]; [lra|].
    left. apply ln_increasing; lra. }
  destruct (Req_dec (e * ln b) 0) as [->|Hneq]; [lra|].
  left. apply exp_increasing. nra.
Qed.


